(** * A course assistant: chunking, retrieval confidence, quiz generation

    A shallow embedding of the retrieval-and-answer pipeline of the course
    assistant: [backend/ingest.py] (token-wise chunking, the embedder and
    the ingestion of files), [backend/query_engine.py] (the enhanced query
    engine), [src/query_rewriter.py], [src/youtube_search.py],
    [backend/quiz_generator.py], [backend/database.py] and the quiz section
    of the page in [app.py].

    Python integers are [Z]; a Python [str] is a [string], each character
    read as one code point below 256; a similarity score is a binary64
    [float]; a raised exception is a value of [exn], and a call that can
    raise returns an [outcome]. *)

From Stdlib Require Import ZArith Lia Ascii String Floats.
From stdpp Require Import gmap strings pretty list fin_maps sorting.

Open Scope string_scope.
Open Scope list_scope.
Open Scope Z_scope.

(** ** Python values and control flow *)

Module Py.

(** An exception: the class name and the message. Only instances of
    [Exception] are modelled, which is what the [except Exception] clauses
    of the sources catch. *)
Inductive exn : Type :=
| Exn (cls : string) (msg : string).

Definition exn_str (e : exn) : string :=
  match e with Exn _ msg => msg end.

(** The result of a call: a returned value or a raised exception. *)
Inductive outcome (A : Type) : Type :=
| Return (a : A)
| Raise (e : exn).
Arguments Return {A} a.
Arguments Raise {A} e.

(** [l[a:b]] for a list: negative indices count from the end, both bounds
    are clamped to the length, and an empty range gives the empty list. *)
Definition slice_index (n i : Z) : Z :=
  if i <? 0 then Z.max (i + n) 0 else Z.min i n.

Definition py_slice {A} (l : list A) (a b : Z) : list A :=
  let n := Z.of_nat (length l) in
  let lo := slice_index n a in
  let hi := slice_index n b in
  take (Z.to_nat (hi - lo)) (drop (Z.to_nat lo) l).

(** [str.isspace] on one code point below 256. *)
Definition isspace (c : ascii) : bool :=
  let n := Z.of_nat (nat_of_ascii c) in
  ((9 <=? n) && (n <=? 13)) || ((28 <=? n) && (n <=? 32))
  || (n =? 133) || (n =? 160).

Fixpoint lstrip (s : string) : string :=
  match s with
  | EmptyString => EmptyString
  | String c s' => if isspace c then lstrip s' else s
  end.

Fixpoint rstrip (s : string) : string :=
  match s with
  | EmptyString => EmptyString
  | String c s' =>
      match rstrip s' with
      | EmptyString => if isspace c then EmptyString else String c EmptyString
      | r => String c r
      end
  end.

(** [s.strip()] *)
Definition strip (s : string) : string := rstrip (lstrip s).

(** Truth value of a [str]: the empty string is false. *)
Definition str_truthy (s : string) : bool :=
  match s with EmptyString => false | _ => true end.

Definition newline : string := String "010"%char "".
Definition double_quote : string := String "034"%char "".

End Py.
Export Py.

(** ** Token-aware chunking ([backend/ingest.py]) *)

Module Ingest.

(** A token id of the tiktoken encoding. *)
Definition token : Type := Z.

Section Chunker.

(** The encoder returned by [get_token_encoder()]: tiktoken's [cl100k_base],
    which is not part of the repository. *)
Variable encode : string -> list token.
Variable decode : list token -> string.

(** The [while i < len(tokens)] loop of [chunk_text_tokenwise]. The loop has
    no bound of its own, so the model counts iterations: [None] means that
    [fuel] iterations did not reach the exit. *)
Fixpoint chunk_loop (fuel : nat) (tokens : list token) (max_tokens step : Z)
    (i : Z) (chunks : list string) : option (list string) :=
  match fuel with
  | O => None
  | S fuel' =>
      if i <? Z.of_nat (length tokens) then
        let chunk_tokens := py_slice tokens i (i + max_tokens) in
        let chunk_text := decode chunk_tokens in
        chunk_loop fuel' tokens max_tokens step (i + step) (chunks ++ [chunk_text])
      else Some chunks
  end.

(** [chunk_text_tokenwise(text, max_tokens, overlap)]. The function has no
    [raise] statement: a run either returns a list or does not finish. *)
Definition chunk_text_tokenwise (fuel : nat) (text : string)
    (max_tokens overlap : Z) : option (outcome (list string)) :=
  let tokens := encode text in
  match tokens with
  | [] => Some (Return [])
  | _ =>
      let step := max_tokens - overlap in
      Return <$> chunk_loop fuel tokens max_tokens step 0 []
  end.

(** The token slices behind the chunks: the same loop, keeping
    [chunk_tokens] instead of its decoding. *)
Fixpoint window_loop (fuel : nat) (tokens : list token) (max_tokens step : Z)
    (i : Z) (windows : list (list token)) : option (list (list token)) :=
  match fuel with
  | O => None
  | S fuel' =>
      if i <? Z.of_nat (length tokens) then
        window_loop fuel' tokens max_tokens step (i + step)
          (windows ++ [py_slice tokens i (i + max_tokens)])
      else Some windows
  end.

Definition chunk_windows (fuel : nat) (text : string)
    (max_tokens overlap : Z) : option (list (list token)) :=
  let tokens := encode text in
  match tokens with
  | [] => Some []
  | _ => window_loop fuel tokens max_tokens (max_tokens - overlap) 0 []
  end.

End Chunker.

(** A sample encoder for concrete runs: one token per character, the token
    being the character's code. *)
Fixpoint char_encode (s : string) : list token :=
  match s with
  | EmptyString => []
  | String c s' => Z.of_nat (nat_of_ascii c) :: char_encode s'
  end.

Fixpoint char_decode (ts : list token) : string :=
  match ts with
  | [] => EmptyString
  | t :: ts' => String (ascii_of_nat (Z.to_nat t)) (char_decode ts')
  end.

(** *** Vocabulary for the statements about windows *)

(** The [k]-th window of width [m] when the loop advances by [s], and the
    first [c] of them. *)
Definition window_at (tokens : list token) (m s k : nat) : list token :=
  take m (drop (k * s) tokens).

Definition windows_upto (tokens : list token) (m s c : nat) : list (list token) :=
  (window_at tokens m s) <$> seq 0 c.

(** Two windows share [o] tokens: each has at least [o] tokens, and the last
    [o] of the first are the first [o] of the second. *)
Definition shares (o : nat) (w w' : list token) : Prop :=
  (o <= length w)%nat /\ (o <= length w')%nat
  /\ drop (length w - o) w = take o w'.


(** *** Text extraction *)

(** What [page.extract_text()] does for one page of a PDF: it returns a
    string or [None], or raises. *)
Inductive page_read : Type :=
| PageText (text : option string)
| PageFails (e : exn).

(** [t or ""] *)
Definition or_empty (t : option string) : string :=
  match t with
  | Some s => s
  | None => ""
  end.

(** [extract_text_from_pdf]: one [(text, page_number)] per page, numbered
    from 1; a page whose extraction raises gives the empty text. *)
Definition page_text (page : page_read) : string :=
  match page with
  | PageText t => or_empty t
  | PageFails _ => ""
  end.

Definition extract_text_from_pdf (pages : list page_read)
    : list (string * option Z) :=
  imap (fun i page => (page_text page, Some (Z.of_nat i + 1))) pages.

(** [extract_text_from_pptx]: a slide is the list of its shapes, each with
    its [text] attribute when it has one; the texts are joined by newlines. *)
Definition extract_text_from_pptx (slides : list (list (option string)))
    : list (string * option Z) :=
  imap (fun i shapes =>
          (String.concat newline (omap id shapes), Some (Z.of_nat i + 1)))
       slides.

(** [extract_text_from_txt_or_md]: the whole file as one part without a
    page. *)
Definition extract_text_from_txt_or_md (content : string)
    : list (string * option Z) :=
  [(content, None)].

(** A file as [process_single_file] sees it: [Path(path).name], the
    lower-cased [Path(path).suffix], and what each reading library makes of
    the file ([PdfReader], [Presentation], [open(...).read()]), which can
    raise. *)
Record source_file : Type := {
  file_name : string;
  file_suffix : string;
  file_pdf : outcome (list page_read);
  file_pptx : outcome (list (list (option string)));
  file_text : outcome string
}.

(** *** The index collection *)

(** The metadata dictionary built for each chunk. *)
Record metadata : Type := {
  course_id : string;
  lecture_id : option string;
  source : string;
  page_or_slide : option Z;
  chunk_index : Z
}.

Section Ingestion.

Variable encode : string -> list token.
Variable decode : list token -> string.

(** The type of an embedding vector. *)
Variable vector : Type.

(** What the collection keeps under one id. A missing embedding is one the
    caller did not supply. *)
Record entry : Type := {
  entry_document : string;
  entry_metadata : metadata;
  entry_embedding : option vector
}.

(** Modelled from the spec: the insertion of the Index Store, which the code
    reaches as [coll.add] of a chromadb collection that is not part of the
    repository. The spec's contract is [upsert(chunk_id, text, metadata,
    vector)], idempotent by chunk id: a collection is a finite map from ids
    to entries and inserting under an id replaces what was there. *)
Definition upsert (id : string) (e : entry) (coll : gmap string entry)
    : gmap string entry :=
  <[id := e]> coll.

(** Modelled from the spec: [coll.add(ids, documents, metadatas,
    embeddings)], the batch form of [upsert], taken position by position
    (argument lists of different lengths are outside the spec; the model
    stops at the shortest). *)
Definition coll_add (ids : list string) (documents : list string)
    (metadatas : list metadata) (embeddings : list (option vector))
    (coll : gmap string entry) : gmap string entry :=
  foldl (fun c '(id, (d, (m, e))) =>
           upsert id {| entry_document := d; entry_metadata := m;
                        entry_embedding := e |} c)
        coll (zip ids (zip documents (zip metadatas embeddings))).

(** The pair stored for one position of the batch. *)
Definition batch_entry (x : string * (string * (metadata * option vector)))
    : string * entry :=
  match x with
  | (id, (d, (m, e))) =>
      (id, {| entry_document := d; entry_metadata := m; entry_embedding := e |})
  end.

(** [insert_chunks_to_collection(coll, ids, documents, metadatas,
    embeddings)] *)
Definition insert_chunks_to_collection (coll : gmap string entry)
    (ids : list string) (documents : list string) (metadatas : list metadata)
    (embeddings : option (list vector)) : gmap string entry :=
  match embeddings with
  | Some embs => coll_add ids documents metadatas (Some <$> embs) coll
  | None =>
      coll_add ids documents metadatas (replicate (length ids) None) coll
  end.

(** *** Ingestion of one file *)

(** [uuid.uuid4()]: the [n]-th identifier drawn in a run. *)
Variable uuid4 : nat -> string.

(** The three lists the main loop fills, and the number of identifiers drawn
    so far. *)
Record gathered : Type := {
  all_chunks : list string;
  all_metadatas : list metadata;
  all_ids : list string;
  drawn : nat
}.

(** The inner loop [for i, chunk in enumerate(chunks)], from index [i]. *)
Fixpoint chunks_loop (course name : string) (lecture : option string)
    (page_idx : option Z) (i : Z) (chunks : list string) (g : gathered)
    : gathered :=
  match chunks with
  | [] => g
  | chunk :: rest =>
      let uid := uuid4 (drawn g) in
      let meta := {| course_id := course; lecture_id := lecture;
                     source := name; page_or_slide := page_idx;
                     chunk_index := i |} in
      chunks_loop course name lecture page_idx (i + 1) rest
        {| all_chunks := all_chunks g ++ [chunk];
           all_metadatas := all_metadatas g ++ [meta];
           all_ids := all_ids g ++ [uid];
           drawn := S (drawn g) |}
  end.

(** The test [not text or len(text.strip()) == 0] that skips a part. *)
Definition skipped (text : string) : bool :=
  negb (str_truthy text) || (String.length (strip text) =? 0)%nat.

(** The outer loop [for (text, page_idx) in parts]. *)
Fixpoint parts_loop (fuel : nat) (course name : string)
    (lecture : option string) (max_tokens overlap : Z)
    (parts : list (string * option Z)) (g : gathered)
    : option (outcome gathered) :=
  match parts with
  | [] => Some (Return g)
  | (text, page_idx) :: rest =>
      if skipped text then
        parts_loop fuel course name lecture max_tokens overlap rest g
      else
        match chunk_text_tokenwise encode decode fuel text max_tokens overlap with
        | None => None
        | Some (Raise e) => Some (Raise e)
        | Some (Return chunks) =>
            parts_loop fuel course name lecture max_tokens overlap rest
              (chunks_loop course name lecture page_idx 0 chunks g)
        end
  end.

(** The collection and the identifiers drawn, before and after a call. *)
Record ingest_state : Type := {
  coll : gmap string entry;
  uuids_drawn : nat
}.

(** The parts of a file, by suffix; [None] for an unsupported type. *)
Definition extract_parts (file : source_file)
    : option (outcome (list (string * option Z))) :=
  if String.eqb (file_suffix file) ".pdf" then
    Some (match file_pdf file with
          | Return pages => Return (extract_text_from_pdf pages)
          | Raise e => Raise e
          end)
  else if String.eqb (file_suffix file) ".pptx" then
    Some (match file_pptx file with
          | Return slides => Return (extract_text_from_pptx slides)
          | Raise e => Raise e
          end)
  else if String.eqb (file_suffix file) ".md"
          || String.eqb (file_suffix file) ".txt" then
    Some (match file_text file with
          | Return content => Return (extract_text_from_txt_or_md content)
          | Raise e => Raise e
          end)
  else None.

(** [process_single_file(path, course_id, lecture_id, embedder, coll,
    max_tokens, overlap)]; [embed_many] is [embedder.embed_many]. The result
    is the number of chunks indexed. *)
Definition process_single_file (fuel : nat) (file : source_file)
    (course : string) (lecture : option string)
    (embed_many : list string -> outcome (list vector))
    (max_tokens overlap : Z) (st : ingest_state)
    : option (outcome Z * ingest_state) :=
  match extract_parts file with
  | None => Some (Return 0, st)
  | Some (Raise e) => Some (Raise e, st)
  | Some (Return parts) =>
      match parts_loop fuel course (file_name file) lecture max_tokens overlap
              parts {| all_chunks := []; all_metadatas := []; all_ids := [];
                       drawn := uuids_drawn st |} with
      | None => None
      | Some (Raise e) => Some (Raise e, st)
      | Some (Return g) =>
          let st' := {| coll := coll st; uuids_drawn := drawn g |} in
          match all_chunks g with
          | [] => Some (Return 0, st')
          | _ =>
              match embed_many (all_chunks g) with
              | Raise e => Some (Raise e, st')
              | Return embeddings =>
                  Some (Return (Z.of_nat (length (all_chunks g))),
                        {| coll := insert_chunks_to_collection (coll st)
                                     (all_ids g) (all_chunks g)
                                     (all_metadatas g) (Some embeddings);
                           uuids_drawn := drawn g |})
              end
          end
      end
  end.

End Ingestion.

End Ingest.

(** ** The query side: rewriting, retrieval, enrichment, quizzes *)

Module Engine.

(** *** Data *)

#[local] Unset Elimination Schemes.

(** A value built by [json.loads]; a dictionary is the list of its items. *)
Inductive json : Type :=
| JNull
| JBool (b : bool)
| JInt (n : Z)
| JFloat (x : float)
| JStr (s : string)
| JList (l : list json)
| JDict (items : list (string * json)).

#[local] Set Elimination Schemes.

(** [d.get(key)] on the items of a dictionary. *)
Fixpoint dict_get (items : list (string * json)) (key : string) : option json :=
  match items with
  | [] => None
  | (k, v) :: rest => if String.eqb k key then Some v else dict_get rest key
  end.

(** The response of [llm.complete(prompt)]; [text] is [None] when the
    response carries no text to call string methods on. *)
Record completion : Type := { text : option string }.

(** A retrieved chunk with its similarity score. *)
Record node : Type := { node_text : string; score : float }.

(** The response of the retrieval query engine: [str(response)] and
    [response.source_nodes]. *)
Record response : Type := {
  response_str : string;
  source_nodes : list node
}.

(** One search result of the video API; a field is [None] when the key is
    absent from the item. *)
Record search_item : Type := {
  item_video_id : option string;
  item_title : option string;
  item_channel_title : option string;
  item_description : option string;
  item_thumbnail_url : option string
}.

(** The dictionary [search_educational_videos] builds per video. *)
Record video : Type := {
  video_id : string;
  video_title : string;
  video_channel : string;
  video_description : string;
  video_thumbnail : string;
  video_url : string
}.

(** The dictionary returned by [EnhancedQueryEngine.query]. *)
Record query_result : Type := {
  answer : string;
  result_source_nodes : list node;
  videos : list video
}.

(** A row of the [quizzes] table; the [questions] column holds the JSON text
    of a value and is kept here as that value. *)
Record quiz_row : Type := {
  row_id : Z;
  row_topic : string;
  row_questions : json;
  row_created_at : Z
}.

(** A call that leaves the process. *)
Inductive call : Type :=
| CallLlm (prompt : string)
| CallQueryEngine (query_str : string)
| CallVideoSearch (q : string) (max_results : Z).

(** The state outside the functions: the environment variables, what was
    printed, the outgoing calls so far, the quiz table with its
    auto-increment counter, a fault of the database if it has one, the
    clock, and whether the persisted vector store exists. *)
Record world : Type := {
  environ : gmap string string;
  stdout : list string;
  calls : list call;
  quiz_rows : list quiz_row;
  quiz_seq : Z;
  db_fault : option exn;
  clock : Z;
  persist_dir_exists : bool
}.

Definition with_stdout (out : list string) (w : world) : world :=
  {| environ := environ w; stdout := out; calls := calls w;
     quiz_rows := quiz_rows w; quiz_seq := quiz_seq w;
     db_fault := db_fault w; clock := clock w;
     persist_dir_exists := persist_dir_exists w |}.

Definition with_calls (cs : list call) (w : world) : world :=
  {| environ := environ w; stdout := stdout w; calls := cs;
     quiz_rows := quiz_rows w; quiz_seq := quiz_seq w;
     db_fault := db_fault w; clock := clock w;
     persist_dir_exists := persist_dir_exists w |}.

Definition with_quizzes (rows : list quiz_row) (seq : Z) (w : world) : world :=
  {| environ := environ w; stdout := stdout w; calls := calls w;
     quiz_rows := rows; quiz_seq := seq;
     db_fault := db_fault w; clock := clock w;
     persist_dir_exists := persist_dir_exists w |}.

(** *** Statements: a state and exception monad *)

Definition M (A : Type) : Type := world -> outcome A * world.

#[export] Instance M_ret : MRet M := fun A a w => (Return a, w).

#[export] Instance M_bind : MBind M := fun A B k m w =>
  match m w with
  | (Return a, w') => k a w'
  | (Raise e, w') => (Raise e, w')
  end.

(** [raise e] *)
Definition raise {A} (e : exn) : M A := fun w => (Raise e, w).

(** [try: body except Exception as e: handler] *)
Definition try_except {A} (body : M A) (handler : exn -> M A) : M A :=
  fun w =>
    match body w with
    | (Return a, w') => (Return a, w')
    | (Raise e, w') => handler e w'
    end.

(** The result of an outside call, made inside a statement. *)
Definition lift {A} (o : outcome A) : M A := fun w => (o, w).

(** [print(line)] *)
Definition print (line : string) : M unit :=
  fun w => (Return tt, with_stdout (stdout w ++ [line]) w).

Definition outgoing (c : call) : M unit :=
  fun w => (Return tt, with_calls (calls w ++ [c]) w).

(** [os.getenv(name)] *)
Definition getenv (name : string) : M (option string) :=
  fun w => (Return (environ w !! name), w).

Definition indent : string := "        ".

(** A text given line by line. *)
Definition lines (ls : list string) : string := String.concat newline ls.

Section Collaborators.

(** The language model: [self.llm.complete]. *)
Variable llm_complete : string -> outcome completion.

(** The retrieval query engine of the index: [self.query_engine.query]. *)
Variable query_engine_query : string -> outcome response.

(** The video API: [self.youtube.search().list(q=..., maxResults=...,
    ...).execute()], giving [search_response.get('items', [])]. *)
Variable youtube_search : string -> Z -> outcome (list search_item).

(** [json.loads] *)
Variable json_loads : string -> outcome json.

(** *** [QueryRewriter] ([src/query_rewriter.py]) *)

Definition rewrite_prompt (original_query : string) : string :=
  lines [ "";
          indent +:+ "Rewrite the following student question to be more effective for retrieving relevant information from educational materials.";
          indent +:+ "Make it more specific, clear, and focused on key concepts.";
          indent;
          indent +:+ "Original query: " +:+ double_quote +:+ original_query
                 +:+ double_quote;
          indent;
          indent +:+ "Rewritten query:";
          indent ].

Definition complete (prompt : string) : M completion :=
  outgoing (CallLlm prompt);; lift (llm_complete prompt).

(** [response.text] used as a string: an [AttributeError] or a [TypeError]
    when there is none. *)
Definition text_of (cls : string) (r : completion) : M string :=
  match text r with
  | Some t => mret t
  | None => raise (Exn cls "response has no text")
  end.

(** [QueryRewriter.rewrite_query(original_query)] *)
Definition rewrite_query (original_query : string) : M string :=
  let prompt := rewrite_prompt original_query in
  try_except
    (response ← complete prompt;
     t ← text_of "AttributeError" response;
     mret (strip t))
    (fun e =>
       print ("Error rewriting query: " +:+ exn_str e);;
       mret original_query).

(** *** [YouTubeSearcher] ([src/youtube_search.py]) *)

(** [build('youtube', 'v3', developerKey=...)] of the API client library. *)
Variable discovery_build : string -> outcome unit.

Record YouTubeSearcher : Type := { api_key : string }.

(** [YouTubeSearcher.__init__] *)
Definition YouTubeSearcher_init : M YouTubeSearcher :=
  key ← getenv "YOUTUBE_API_KEY";
  match key with
  | Some k =>
      if str_truthy k then
        lift (discovery_build k);;
        mret {| api_key := k |}
      else raise (Exn "ValueError" "YouTube API key not found in environment variables")
  | None => raise (Exn "ValueError" "YouTube API key not found in environment variables")
  end.

(** [d[key]] for a key that can be absent *)
Definition subscript (field : option string) : M string :=
  match field with
  | Some s => mret s
  | None => raise (Exn "KeyError" "missing key")
  end.

(** The loop [for item in search_response.get('items', [])]. *)
Fixpoint items_loop (items : list search_item) (acc : list video)
    : M (list video) :=
  match items with
  | [] => mret acc
  | item :: rest =>
      vid ← subscript (item_video_id item);
      title ← subscript (item_title item);
      channel ← subscript (item_channel_title item);
      description ← subscript (item_description item);
      thumbnail ← subscript (item_thumbnail_url item);
      items_loop rest
        (acc ++ [ {| video_id := vid; video_title := title;
                     video_channel := channel;
                     video_description := description;
                     video_thumbnail := thumbnail;
                     video_url := "https://www.youtube.com/watch?v=" +:+ vid |} ])
  end.

(** [YouTubeSearcher.search_educational_videos(query, max_results)] *)
Definition search_educational_videos (query : string) (max_results : Z)
    : M (list video) :=
  try_except
    (outgoing (CallVideoSearch (query +:+ " tutorial education") max_results);;
     items ← lift (youtube_search (query +:+ " tutorial education") max_results);
     items_loop items [])
    (fun e =>
       print ("Error searching YouTube: " +:+ exn_str e);;
       mret []).

(** *** The quiz store ([backend/database.py]) *)

(** [save_quiz(topic, questions)]: one more row, numbered by the
    auto-increment counter and stamped with the current time; a database
    fault raises and adds nothing. *)
Definition save_quiz (topic : string) (questions : json) : M unit :=
  fun w =>
    match db_fault w with
    | Some e => (Raise e, w)
    | None =>
        let id := quiz_seq w + 1 in
        (Return tt,
         with_quizzes (quiz_rows w ++ [ {| row_id := id; row_topic := topic;
                                           row_questions := questions;
                                           row_created_at := clock w |} ])
                      id w)
    end.

(** *** [QuizGenerator] ([backend/quiz_generator.py]) *)

(** The line of the prompt in which the copy under [src/] differs from the
    one under [backend/]. *)
Inductive generator_copy : Type := BackendCopy | SrcCopy.

Definition format_line (copy : generator_copy) : string :=
  match copy with
  | BackendCopy =>
      "Format your response as a JSON object with the following structure:"
  | SrcCopy =>
      "Format your response strictly as a JSON object with the following structure, no extra comments:"
  end.

Definition quoted (s : string) : string := double_quote +:+ s +:+ double_quote.

Definition quiz_prompt (copy : generator_copy) (topic context : string)
    (num_questions : Z) : string :=
  lines [ "";
          indent +:+ "Based on the following context about " +:+ topic
                 +:+ ", generate a " +:+ pretty num_questions
                 +:+ "-question multiple choice quiz.";
          indent +:+ format_line copy;
          indent +:+ "{";
          indent +:+ "    " +:+ quoted "quiz_title" +:+ ": "
                 +:+ quoted "Quiz about [topic]" +:+ ",";
          indent +:+ "    " +:+ quoted "questions" +:+ ": [";
          indent +:+ "        {";
          indent +:+ "            " +:+ quoted "question" +:+ ": "
                 +:+ quoted "Question text" +:+ ",";
          indent +:+ "            " +:+ quoted "options" +:+ ": ["
                 +:+ quoted "Option 1" +:+ ", " +:+ quoted "Option 2" +:+ ", "
                 +:+ quoted "Option 3" +:+ ", " +:+ quoted "Option 4" +:+ "],";
          indent +:+ "            " +:+ quoted "correct_answer"
                 +:+ ": 0  // Index of the correct option (0-3)";
          indent +:+ "        }";
          indent +:+ "    ]";
          indent +:+ "}";
          indent;
          indent +:+ "Context:";
          indent +:+ context;
          indent ].

(** [QuizGenerator.generate_quiz(topic, context, num_questions)]; the result
    is the parsed quiz, or [None]. *)
Definition generate_quiz (copy : generator_copy) (topic context : string)
    (num_questions : Z) : M (option json) :=
  let prompt := quiz_prompt copy topic context num_questions in
  try_except
    (response ← complete prompt;
     t ← text_of "TypeError" response;
     quiz_data ← lift (json_loads t);
     save_quiz topic quiz_data;;
     mret (Some quiz_data))
    (fun e =>
       print ("Error generating quiz: " +:+ exn_str e);;
       mret None).

(** *** [EnhancedQueryEngine] ([backend/query_engine.py]) *)

(** The similarity threshold 0.7, as the binary64 value of the literal. *)
Definition threshold : float := 0x1.6666666666666p-1%float.

(** The loop [for node in response.source_nodes] of [_is_low_confidence]. *)
Fixpoint scores_loop (nodes : list node) : bool :=
  match nodes with
  | [] => true
  | n :: rest => if PrimFloat.ltb threshold (score n) then false else scores_loop rest
  end.

(** [EnhancedQueryEngine._is_low_confidence(response)] *)
Definition _is_low_confidence (r : response) : bool :=
  match source_nodes r with
  | [] => true
  | nodes => scores_loop nodes
  end.

Definition retrieve (query_str : string) : M response :=
  outgoing (CallQueryEngine query_str);; lift (query_engine_query query_str).

(** [EnhancedQueryEngine.query(question, get_videos)] *)
Definition query (question : string) (get_videos : bool) : M query_result :=
  rewritten_query ← rewrite_query question;
  print ("Original query: " +:+ question);;
  print ("Rewritten query: " +:+ rewritten_query);;
  response ← retrieve rewritten_query;
  let result := {| answer := response_str response;
                   result_source_nodes := source_nodes response;
                   videos := [] |} in
  if get_videos || _is_low_confidence response then
    found ← search_educational_videos question 5;
    mret {| answer := answer result;
            result_source_nodes := result_source_nodes result;
            videos := found |}
  else mret result.

(** [EnhancedQueryEngine.generate_quiz(topic, context, num_questions)] *)
Definition engine_generate_quiz (topic : string) (context : option string)
    (num_questions : Z) : M (option json) :=
  match context with
  | Some c => generate_quiz BackendCopy topic c num_questions
  | None =>
      retrieval_response ← retrieve topic;
      generate_quiz BackendCopy topic
        (String.concat newline (node_text <$> source_nodes retrieval_response))
        num_questions
  end.

(** Loading the persisted index (the chromadb client, the collection, the
    vector store and the index built on it), creating the model client with
    the key of the environment, and building the query engine with the
    tutoring prompt: library calls that can raise. *)
Variable load_index : outcome unit.
Variable new_llm : option string -> outcome unit.
Variable as_query_engine : outcome unit.

Record EnhancedQueryEngine : Type := { youtube_searcher : YouTubeSearcher }.

(** [EnhancedQueryEngine.__init__] *)
Definition EnhancedQueryEngine_init : M EnhancedQueryEngine :=
  exists_dir ← (fun w => (Return (persist_dir_exists w), w)) : M bool;
  if negb exists_dir then
    raise (Exn "FileNotFoundError" "Vector store not found. Please run ingestion first.")
  else
    lift load_index;;
    groq_key ← getenv "GROQ_API_KEY";
    lift (new_llm groq_key);;
    searcher ← YouTubeSearcher_init;
    lift as_query_engine;;
    mret {| youtube_searcher := searcher |}.

End Collaborators.

End Engine.

(** ** The shape the spec asks of a quiz *)

Module QuizShape.
Import Engine.

(** These two definitions follow the spec, not the code (which has no such
    check): a question has exactly 4 options and a correct-answer index
    within [0, 3]; a quiz has a title and a non-empty list of such
    questions. *)
Definition spec_valid_question (q : json) : bool :=
  match q with
  | JDict items =>
      match dict_get items "options", dict_get items "correct_answer" with
      | Some (JList options), Some (JInt k) =>
          (length options =? 4)%nat && (0 <=? k) && (k <=? 3)
      | _, _ => false
      end
  | _ => false
  end.

Definition spec_valid_quiz (quiz : json) : bool :=
  match quiz with
  | JDict items =>
      match dict_get items "quiz_title", dict_get items "questions" with
      | Some _, Some (JList (q :: qs)) => forallb spec_valid_question (q :: qs)
      | _, _ => false
      end
  | _ => false
  end.

End QuizShape.

(** ** Sample collaborators for concrete runs *)

Module Samples.
Import Ingest Engine.

(** A page of 1000 characters, hence of 1000 tokens for [char_encode]. *)
Definition long_page : string := string_of_list_ascii (replicate 1000 "a"%char).

Definition two_page_pdf : source_file :=
  {| file_name := "lecture.pdf"; file_suffix := ".pdf";
     file_pdf := Return [PageText (Some long_page); PageText (Some "")];
     file_pptx := Raise (Exn "PackageNotFoundError" "not a presentation");
     file_text := Return "" |}.

Definition numbered_uuid (n : nat) : string := "uuid-" +:+ pretty n.

Definition zero_embedder (texts : list string) : outcome (list Z) :=
  Return ((fun _ => 0) <$> texts).

Definition empty_store : ingest_state Z := {| coll := ∅; uuids_drawn := 0 |}.

Definition quiet_world : world :=
  {| environ := ∅; stdout := []; calls := []; quiz_rows := [];
     quiz_seq := 0; db_fault := None; clock := 0;
     persist_dir_exists := true |}.

(** A model answer whose only question points at option 5 of 4. *)
Definition bad_quiz_text : string :=
  "{" +:+ quoted "quiz_title" +:+ ": " +:+ quoted "Quiz" +:+ ", "
  +:+ quoted "questions" +:+ ": [{" +:+ quoted "question" +:+ ": "
  +:+ quoted "Q" +:+ ", " +:+ quoted "options" +:+ ": [" +:+ quoted "a"
  +:+ ", " +:+ quoted "b" +:+ ", " +:+ quoted "c" +:+ ", " +:+ quoted "d"
  +:+ "], " +:+ quoted "correct_answer" +:+ ": 5}]}".

Definition bad_quiz : json :=
  JDict [ ("quiz_title", JStr "Quiz");
          ("questions",
           JList [ JDict [ ("question", JStr "Q");
                           ("options", JList [JStr "a"; JStr "b"; JStr "c"; JStr "d"]);
                           ("correct_answer", JInt 5) ] ]) ].

Definition bad_quiz_llm (prompt : string) : outcome completion :=
  Return {| text := Some bad_quiz_text |}.

(** [json.loads] on the one text of the sample. *)
Definition sample_loads (t : string) : outcome json :=
  if String.eqb t bad_quiz_text then Return bad_quiz
  else Raise (Exn "JSONDecodeError" "Expecting value").

Definition failing_llm (prompt : string) : outcome completion :=
  Raise (Exn "APITimeoutError" "Request timed out.").

Definition echo_llm (prompt : string) : outcome completion :=
  Return {| text := Some "  object oriented programming concepts  " |}.

Definition confident_response : response :=
  {| response_str := "An answer.";
     source_nodes := [ {| node_text := "chunk"; score := 0x1.b333333333333p-1%float |} ] |}.

Definition doubtful_response : response :=
  {| response_str := "An answer.";
     source_nodes := [ {| node_text := "chunk"; score := 0x1.999999999999ap-2%float |} ] |}.

Definition no_videos (q : string) (max_results : Z) : outcome (list search_item) :=
  Return [].

End Samples.

(** ** The embedder and the ingestion of several files ([backend/ingest.py]) *)

Module Embedding.
Import Ingest.

(** [range(start, stop, step)] for a positive step. *)
Definition py_range (start stop step : Z) : list Z :=
  (fun k => start + Z.of_nat k * step)
    <$> seq 0 (Z.to_nat ((stop - start + step - 1) / step)).

(** Whether the optional imports at the top of the module succeeded:
    [openai] and [SentenceTransformer] are [None] when they did not. *)
Record imports : Type := {
  openai_imported : bool;
  sentence_transformers_imported : bool
}.

(** An [Embedder]: the strategy chosen at construction. *)
Record Embedder : Type := { use_openai : bool }.

(** Truth value of an optional string: [None] and the empty string are
    false. *)
Definition key_truthy (key : option string) : bool :=
  match key with
  | Some k => str_truthy k
  | None => false
  end.

Definition BATCH : Z := 16.

Section Embedder.

Variable vector : Type.
Variable mods : imports.

(** [SentenceTransformer("all-MiniLM-L6-v2")], which loads the model. *)
Variable load_model : outcome unit.

(** [openai.Embedding.create(model=..., input=batch)], as the list of the
    [d["embedding"]] of its [resp["data"]]. *)
Variable openai_create : list string -> outcome (list vector).

(** [self.model.encode(texts, ...)], each embedding as a list. *)
Variable model_encode : list string -> outcome (list vector).

(** [Embedder.__init__(use_openai, openai_api_key)] *)
Definition Embedder_init (use_openai_arg : bool) (openai_api_key : option string)
    : outcome Embedder :=
  let use := use_openai_arg && openai_imported mods && key_truthy openai_api_key in
  if use then Return {| use_openai := true |}
  else if negb (sentence_transformers_imported mods) then
    Raise (Exn "RuntimeError"
             "OpenAI key not found and sentence-transformers not installed. Install sentence-transformers or set OPENAI_API_KEY.")
  else
    match load_model with
    | Return _ => Return {| use_openai := false |}
    | Raise e => Raise e
    end.

(** The loop [for i in range(0, len(texts), BATCH)], over the starts left. *)
Fixpoint batches_loop (starts : list Z) (texts : list string)
    (results : list vector) : outcome (list vector) :=
  match starts with
  | [] => Return results
  | i :: rest =>
      let batch := py_slice texts i (i + BATCH) in
      match openai_create batch with
      | Raise e => Raise e
      | Return data => batches_loop rest texts (results ++ data)
      end
  end.

(** [Embedder.embed_many(texts)] *)
Definition embed_many (self : Embedder) (texts : list string)
    : outcome (list vector) :=
  if use_openai self then
    batches_loop (py_range 0 (Z.of_nat (length texts)) BATCH) texts []
  else model_encode texts.

(** The batches sent to the service: the slices the loop takes. *)
Definition batches (texts : list string) : list (list string) :=
  (fun i => py_slice texts i (i + BATCH))
    <$> py_range 0 (Z.of_nat (length texts)) BATCH.

End Embedder.

Section IngestFiles.

Variable encode : string -> list token.
Variable decode : list token -> string.
Variable vector : Type.
Variable uuid4 : nat -> string.

(** [client.get_or_create_collection(name=...)] and
    [client.create_collection(name=...)] of the chromadb client; the
    collection they give is the one of the state. *)
Variable get_or_create_collection : outcome unit.
Variable create_collection : outcome unit.

(** [ensure_collection(client, collection_name)]; the message it prints
    first is left out. *)
Definition ensure_collection : outcome unit :=
  match create_collection with
  | Return c => Return c
  | Raise _ => create_collection
  end.

(** The loop [for p in paths] of [ingest_files]. *)
Fixpoint files_loop (fuel : nat) (files : list source_file) (course : string)
    (lecture : option string)
    (embed : list string -> outcome (list vector))
    (max_tokens overlap : Z) (total : Z) (st : ingest_state vector)
    : option (outcome Z * ingest_state vector) :=
  match files with
  | [] => Some (Return total, st)
  | p :: rest =>
      match process_single_file encode decode vector uuid4 fuel p course
              lecture embed max_tokens overlap st with
      | None => None
      | Some (Raise e, st') => Some (Raise e, st')
      | Some (Return n, st') =>
          files_loop fuel rest course lecture embed max_tokens overlap
            (total + n) st'
      end
  end.

(** [ingest_files(paths, collection_name, course_id, lecture_id,
    persist_directory, openai_api_key, max_tokens, overlap)]; the chromadb
    client is taken as constructed, the files are given as
    [process_single_file] sees them, and the final [client.persist()], whose
    failure is ignored, changes nothing here. *)
Definition ingest_files (mods : imports) (load_model : outcome unit)
    (openai_create model_encode : list string -> outcome (list vector))
    (fuel : nat) (files : list source_file) (course : string)
    (lecture : option string) (openai_api_key : option string)
    (max_tokens overlap : Z) (st : ingest_state vector)
    : option (outcome Z * ingest_state vector) :=
  match (match get_or_create_collection with
         | Return c => Return c
         | Raise _ => ensure_collection
         end) with
  | Raise e => Some (Raise e, st)
  | Return _ =>
      match Embedder_init mods load_model true openai_api_key with
      | Raise e => Some (Raise e, st)
      | Return embedder =>
          files_loop fuel files course lecture
            (embed_many vector openai_create model_encode embedder)
            max_tokens overlap 0 st
      end
  end.

(** *** Vocabulary for the statements about one file *)

(** The chunks of a text, enough iterations given. *)
Definition chunks_of (max_tokens overlap : Z) (text : string) : list string :=
  match chunk_text_tokenwise encode decode (S (length (encode text))) text
          max_tokens overlap with
  | Some (Return chunks) => chunks
  | _ => []
  end.

(** The parts that are not skipped. *)
Definition kept (parts : list (string * option Z)) : list (string * option Z) :=
  List.filter (fun p => negb (skipped p.1)) parts.

(** The metadata of the chunks of one part: its page, and the index of the
    chunk in the part. *)
Definition part_metadatas (course name : string) (lecture : option string)
    (max_tokens overlap : Z) (p : string * option Z) : list metadata :=
  imap (fun j _ => {| course_id := course; lecture_id := lecture;
                      source := name; page_or_slide := p.2;
                      chunk_index := Z.of_nat j |})
       (chunks_of max_tokens overlap p.1).

Definition file_chunks (max_tokens overlap : Z)
    (parts : list (string * option Z)) : list string :=
  concat ((fun p => chunks_of max_tokens overlap p.1) <$> kept parts).

Definition file_metadatas (course name : string) (lecture : option string)
    (max_tokens overlap : Z) (parts : list (string * option Z))
    : list metadata :=
  concat (part_metadatas course name lecture max_tokens overlap <$> kept parts).

End IngestFiles.

End Embedding.

(** ** Vocabulary for the statements about the video search *)

Module Enrichment.
Import Engine.

(** The dictionary built from one search result, when the result has the
    five keys the loop reads. *)
Definition video_of (item : search_item) : option video :=
  match item_video_id item, item_title item, item_channel_title item,
        item_description item, item_thumbnail_url item with
  | Some vid, Some title, Some channel, Some description, Some thumbnail =>
      Some {| video_id := vid; video_title := title; video_channel := channel;
              video_description := description; video_thumbnail := thumbnail;
              video_url := "https://www.youtube.com/watch?v=" +:+ vid |}
  | _, _, _, _, _ => None
  end.

End Enrichment.

(** ** Listing the saved quizzes ([backend/database.py]) *)

Module Store.
Import Engine.

(** [LIMIT ?]: a negative limit is no limit. *)
Definition sql_limit {A} (limit : Z) (rows : list A) : list A :=
  if limit <? 0 then rows else take (Z.to_nat limit) rows.

(** One row is at least as recent as the next. *)
Definition not_older (a b : quiz_row) : Prop :=
  row_created_at b <= row_created_at a.

Section Listing.

(** [ORDER BY created_at DESC]: the rows in an order the database chooses
    among those that put later rows first. *)
Variable by_recency : list quiz_row -> list quiz_row.

(** [get_quizzes(limit)]; a result dictionary has the fields of its row. *)
Definition get_quizzes (limit : Z) : M (list quiz_row) :=
  fun w =>
    match db_fault w with
    | Some e => (Raise e, w)
    | None => (Return (sql_limit limit (by_recency (quiz_rows w))), w)
    end.

(** [EnhancedQueryEngine.get_saved_quizzes(limit)] *)
Definition get_saved_quizzes (limit : Z) : M (list quiz_row) :=
  get_quizzes limit.

End Listing.

(** Every id of the table is at most the auto-increment counter, and no two
    rows share an id. *)
Definition store_ok (w : world) : Prop :=
  Forall (fun r => row_id r <= quiz_seq w) (quiz_rows w)
  /\ NoDup (row_id <$> quiz_rows w).

#[export] Instance not_older_dec (a b : quiz_row) : Decision (not_older a b) :=
  Z_le_dec (row_created_at b) (row_created_at a).

(** A sort by recency for concrete runs. *)
Definition recency_sort (rows : list quiz_row) : list quiz_row :=
  merge_sort not_older rows.

End Store.

(** ** The display of a quiz ([app.py]) *)

Module Display.
Import Engine.

(** [l[k]] for a list: a negative index counts from the end. *)
Definition py_index {A} (l : list A) (k : Z) : option A :=
  let n := Z.of_nat (length l) in
  if (0 <=? k) && (k <? n) then l !! Z.to_nat k
  else if (k <? 0) && (- n <=? k) then l !! Z.to_nat (k + n)
  else None.

(** An index that is an integer; [True] and [False] are 1 and 0. *)
Definition as_index (index : json) : option Z :=
  match index with
  | JInt k => Some k
  | JBool b => Some (if b then 1 else 0)
  | _ => None
  end.

(** [container[index]] on values built by [json.loads]; an exception has
    the class Python gives it, and its message in short. *)
Definition subscript_json (container index : json) : outcome json :=
  match container with
  | JList l =>
      match as_index index with
      | Some k =>
          match py_index l k with
          | Some x => Return x
          | None => Raise (Exn "IndexError" "list index out of range")
          end
      | None => Raise (Exn "TypeError" "list indices must be integers or slices")
      end
  | JStr s =>
      match as_index index with
      | Some k =>
          match py_index (list_ascii_of_string s) k with
          | Some c => Return (JStr (String c EmptyString))
          | None => Raise (Exn "IndexError" "string index out of range")
          end
      | None => Raise (Exn "TypeError" "string indices must be integers")
      end
  | JDict items =>
      match index with
      | JStr key =>
          match dict_get items key with
          | Some v => Return v
          | None => Raise (Exn "KeyError" key)
          end
      | JList _ | JDict _ => Raise (Exn "TypeError" "unhashable type")
      | _ => Raise (Exn "KeyError" "key")
      end
  | _ => Raise (Exn "TypeError" "object is not subscriptable")
  end.

(** [question["options"][question["correct_answer"]]], which the display
    evaluates for every question of the current quiz. *)
Definition correct_option (question : json) : outcome json :=
  match subscript_json question (JStr "options") with
  | Raise e => Raise e
  | Return options =>
      match subscript_json question (JStr "correct_answer") with
      | Raise e => Raise e
      | Return index => subscript_json options index
      end
  end.

(** [for question in value] on a value built by [json.loads]: a list gives
    its elements, a dictionary its keys, a string its characters. *)
Definition py_iter (value : json) : outcome (list json) :=
  match value with
  | JList l => Return l
  | JDict items => Return ((fun item => JStr item.1) <$> items)
  | JStr s =>
      Return ((fun c => JStr (String c EmptyString)) <$> list_ascii_of_string s)
  | _ => Raise (Exn "TypeError" "object is not iterable")
  end.

(** Truth value of a value built by [json.loads]. *)
Definition json_truthy (value : json) : bool :=
  match value with
  | JNull => false
  | JBool b => b
  | JInt n => negb (n =? 0)
  | JFloat x => negb (PrimFloat.eqb x 0%float)
  | JStr s => str_truthy s
  | JList l => match l with [] => false | _ => true end
  | JDict items => match items with [] => false | _ => true end
  end.

(** Sequencing of calls that can raise. *)
#[export] Instance outcome_ret : MRet outcome := fun A a => Return a.

#[export] Instance outcome_bind : MBind outcome := fun A B k m =>
  match m with
  | Return a => k a
  | Raise e => Raise e
  end.

(** One entry of [user_answers]. *)
Record user_answer : Type := {
  ua_question : json;
  ua_user_answer : option json;
  ua_correct_answer : json;
  ua_is_correct : option bool
}.

(** [{"quiz_title": quiz['topic'], "questions": quiz['questions']}], the
    current quiz that the button [Load Quiz] sets from a saved quiz. *)
Definition load_quiz (row : quiz_row) : json :=
  JDict [ ("quiz_title", JStr (row_topic row));
          ("questions", row_questions row) ].

Section Page.

(** [st.radio("Select your answer:", options, key=f"quiz_{i}", index=None)]:
    the option selected, or [None]. *)
Variable st_radio : nat -> json -> outcome (option json).

(** [==] between two values built by [json.loads]. *)
Variable py_eq : json -> json -> bool.

(** [answer == question["options"][question["correct_answer"]] if answer
    else None] *)
Definition is_correct_of (answer : option json) (question : json)
    : outcome (option bool) :=
  match answer with
  | Some a =>
      if json_truthy a then
        correct ← correct_option question;
        mret (Some (py_eq a correct))
      else mret None
  | None => mret None
  end.

(** The loop [for i, question in enumerate(quiz["questions"])]. *)
Fixpoint questions_loop (i : nat) (questions : list json)
    (user_answers : list user_answer) : outcome (list user_answer) :=
  match questions with
  | [] => mret user_answers
  | question :: rest =>
      _ ← subscript_json question (JStr "question");
      options ← subscript_json question (JStr "options");
      answer ← st_radio i options;
      text ← subscript_json question (JStr "question");
      correct ← correct_option question;
      is_correct ← is_correct_of answer question;
      questions_loop (S i) rest
        (user_answers ++ [ {| ua_question := text; ua_user_answer := answer;
                              ua_correct_answer := correct;
                              ua_is_correct := is_correct |} ])
  end.

(** The quiz section of the page, from the header to the list of answers
    that the button [Submit Quiz] scores; the Streamlit calls that only
    write to the page are taken to return. *)
Definition quiz_display (quiz : json) : outcome (list user_answer) :=
  _ ← subscript_json quiz (JStr "quiz_title");
  questions ← subscript_json quiz (JStr "questions");
  items ← py_iter questions;
  questions_loop 0 items [].

End Page.

End Display.

(** ** More sample collaborators *)

Module MoreSamples.
Import Ingest Engine Embedding Enrichment Store Display Samples.

(** A service that embeds every text by its length. *)
Definition length_embedder (texts : list string) : outcome (list Z) :=
  Return ((fun t => Z.of_nat (String.length t)) <$> texts).

Definition text_file (name content : string) : source_file :=
  {| file_name := name; file_suffix := ".txt";
     file_pdf := Raise (Exn "PdfReadError" "not a PDF");
     file_pptx := Raise (Exn "PackageNotFoundError" "not a presentation");
     file_text := Return content |}.

Definition complete_item : search_item :=
  {| item_video_id := Some "abc"; item_title := Some "Sets";
     item_channel_title := Some "Maths"; item_description := Some "About sets";
     item_thumbnail_url := Some "https://img/abc.jpg" |}.

Definition good_question : json :=
  JDict [ ("question", JStr "Q");
          ("options", JList [JStr "a"; JStr "b"; JStr "c"; JStr "d"]);
          ("correct_answer", JInt 2) ].

Definition good_quiz : json :=
  JDict [ ("quiz_title", JStr "Quiz about sets");
          ("questions", JList [good_question]) ].

Definition good_quiz_llm (prompt : string) : outcome completion :=
  Return {| text := Some "good quiz" |}.

(** [json.loads] on the one text of [good_quiz_llm]. *)
Definition good_loads (t : string) : outcome json :=
  if String.eqb t "good quiz" then Return good_quiz
  else Raise (Exn "JSONDecodeError" "Expecting value").

(** A page on which nothing is selected. *)
Definition nothing_selected (i : nat) (options : json) : outcome (option json) :=
  Return None.

(** Equality on the values of the samples, which are strings. *)
Definition str_eq (a b : json) : bool :=
  match a, b with
  | JStr s, JStr t => String.eqb s t
  | _, _ => false
  end.

Definition old_row : quiz_row :=
  {| row_id := 1; row_topic := "graphs"; row_questions := JList [];
     row_created_at := 10 |}.

Definition world_with_quiz : world :=
  {| environ := ∅; stdout := []; calls := []; quiz_rows := [old_row];
     quiz_seq := 1; db_fault := None; clock := 20;
     persist_dir_exists := true |}.

End MoreSamples.

(** * Properties *)

Import Ingest Engine QuizShape Samples.

(** ** Slices and the chunking loop *)

Lemma py_slice_window {A} (l : list A) (i m : Z) :
  0 <= i -> 0 <= m ->
  py_slice l i (i + m) = take (Z.to_nat m) (drop (Z.to_nat i) l).
Proof.
  intros Hi Hm. unfold py_slice, slice_index.
  destruct (Z.ltb_spec i 0) as [?|_]; [lia|].
  destruct (Z.ltb_spec (i + m) 0) as [?|_]; [lia|].
  destruct (Z_lt_le_dec i (Z.of_nat (length l))) as [Hlt|Hge].
  - rewrite (Z.min_l i) by lia.
    destruct (Z_le_gt_dec (i + m) (Z.of_nat (length l))) as [Hfit|Hover].
    + rewrite Z.min_l by lia. f_equal. lia.
    + rewrite Z.min_r by lia.
      rewrite !take_ge; [reflexivity | rewrite length_drop; lia ..].
  - rewrite (Z.min_r i) by lia.
    rewrite Nat2Z.id, drop_all.
    rewrite (drop_ge l (Z.to_nat i)) by lia.
    now rewrite !take_nil.
Qed.

Lemma windows_upto_S tokens m s c :
  windows_upto tokens m s (S c)
  = windows_upto tokens m s c ++ [window_at tokens m s c].
Proof. unfold windows_upto. now rewrite seq_S, fmap_app. Qed.

Lemma windows_upto_length tokens m s c :
  length (windows_upto tokens m s c) = c.
Proof. unfold windows_upto. now rewrite length_fmap, length_seq. Qed.

Lemma windows_upto_lookup tokens m s c k :
  (k < c)%nat -> windows_upto tokens m s c !! k = Some (window_at tokens m s k).
Proof.
  intros Hk. unfold windows_upto.
  rewrite list_lookup_fmap, lookup_seq_lt by lia. reflexivity.
Qed.

(** With a positive step the loop ends: started after [c] windows with
    enough fuel, it returns the windows [0 .. c'-1], where [c'] is the
    first count whose start [c' * step] is past the last token. *)
Lemma window_loop_run tokens (max_tokens step : Z) :
  0 <= max_tokens -> 1 <= step ->
  forall fuel c,
    (0 < fuel)%nat ->
    (length tokens < c * Z.to_nat step + fuel)%nat ->
    exists c', (c <= c')%nat
      /\ window_loop fuel tokens max_tokens step
           (Z.of_nat (c * Z.to_nat step))
           (windows_upto tokens (Z.to_nat max_tokens) (Z.to_nat step) c)
         = Some (windows_upto tokens (Z.to_nat max_tokens) (Z.to_nat step) c')
      /\ (length tokens <= c' * Z.to_nat step)%nat
      /\ ((c < c')%nat -> ((c' - 1) * Z.to_nat step < length tokens)%nat)
      /\ ((length tokens <= c * Z.to_nat step)%nat -> c' = c).
Proof.
  intros Hm Hs. induction fuel as [|fuel IH]; intros c Hpos Hfuel; [lia|].
  - simpl.
    destruct (Z.ltb_spec (Z.of_nat (c * Z.to_nat step)) (Z.of_nat (length tokens)))
      as [Hin|Hout].
    + destruct (IH (S c)) as (c' & Hle & Hrun & Hend & Hlast & _).
      { lia. }
      { simpl. lia. }
      exists c'. split; [lia|]. split.
      * rewrite py_slice_window by lia.
        rewrite Nat2Z.id.
        change (take (Z.to_nat max_tokens) (drop (c * Z.to_nat step) tokens))
          with (window_at tokens (Z.to_nat max_tokens) (Z.to_nat step) c).
        rewrite <- windows_upto_S.
        replace (Z.of_nat (c * Z.to_nat step) + step)
          with (Z.of_nat (S c * Z.to_nat step)) by (simpl; lia).
        exact Hrun.
      * split; [exact Hend|]. split; [|lia].
        intros _. destruct (decide (c' = S c)) as [->|Hne].
        -- simpl. rewrite Nat.sub_0_r. lia.
        -- apply Hlast. lia.
    + exists c. repeat split; try lia. 
Qed.

(** With a step of zero or less the loop never leaves a position at or
    before the first token. *)
Lemma window_loop_diverges tokens (max_tokens step : Z) :
  tokens <> [] -> step <= 0 ->
  forall fuel i windows, i <= 0 ->
    window_loop fuel tokens max_tokens step i windows = None.
Proof.
  intros Hne Hs. induction fuel as [|fuel IH]; intros i windows Hi; [reflexivity|].
  simpl. destruct tokens as [|t ts]; [congruence|].
  destruct (Z.ltb_spec i (Z.of_nat (length (t :: ts)))) as [_|Hge].
  - apply IH. lia.
  - simpl in Hge. lia.
Qed.

Section ChunkerFacts.

Variable encode : string -> list token.
Variable decode : list token -> string.

(** The chunks are the decoded windows. *)
Lemma chunk_loop_windows fuel tokens max_tokens step i
    (windows : list (list token)) :
  chunk_loop decode fuel tokens max_tokens step i (decode <$> windows)
  = (fun ws : list (list token) => decode <$> ws)
      <$> window_loop fuel tokens max_tokens step i windows.
Proof.
  revert i windows. induction fuel as [|fuel IH]; intros i windows; [reflexivity|].
  simpl. destruct (i <? Z.of_nat (length tokens)); [|reflexivity].
  rewrite <- IH. now rewrite fmap_app.
Qed.

Lemma chunk_text_tokenwise_windows fuel text max_tokens overlap :
  chunk_text_tokenwise encode decode fuel text max_tokens overlap
  = (fun ws : list (list token) => Return (decode <$> ws))
      <$> chunk_windows encode fuel text max_tokens overlap.
Proof.
  unfold chunk_text_tokenwise, chunk_windows.
  destruct (encode text) as [|t ts]; [reflexivity|].
  change (@nil string) with (decode <$> @nil (list token)).
  rewrite chunk_loop_windows.
  now destruct (window_loop _ _ _ _ _ _).
Qed.

(** A valid configuration terminates: more fuel than tokens is enough. *)
Lemma chunk_windows_run text (max_tokens overlap : Z) fuel :
  0 <= overlap < max_tokens ->
  (length (encode text) < fuel)%nat ->
  exists c,
    chunk_windows encode fuel text max_tokens overlap
    = Some (windows_upto (encode text) (Z.to_nat max_tokens)
              (Z.to_nat (max_tokens - overlap)) c)
    /\ (length (encode text) <= c * Z.to_nat (max_tokens - overlap))%nat
    /\ ((0 < c)%nat ->
        ((c - 1) * Z.to_nat (max_tokens - overlap) < length (encode text))%nat).
Proof.
  intros Hcfg Hfuel. unfold chunk_windows.
  destruct (encode text) as [|t ts] eqn:Htok.
  - exists 0%nat. simpl. repeat split; lia.
  - assert (Hpos : (0 < fuel)%nat) by lia.
    assert (Hlen : (length (t :: ts)
                    < 0 * Z.to_nat (max_tokens - overlap) + fuel)%nat)
      by (simpl in *; lia).
    destruct (window_loop_run (t :: ts) max_tokens (max_tokens - overlap)
                ltac:(lia) ltac:(lia) fuel 0%nat Hpos Hlen)
      as (c' & _ & Hrun & Hend & Hlast & _).
    exists c'. split; [exact Hrun|]. split; [exact Hend|]. exact Hlast.
Qed.

End ChunkerFacts.

Lemma window_at_length tokens m s k :
  length (window_at tokens m s k) = Nat.min m (length tokens - k * s).
Proof. unfold window_at. now rewrite length_take, length_drop. Qed.

Lemma window_at_full_shares tokens m o k :
  (o < m)%nat ->
  length (window_at tokens m (m - o) k) = m ->
  shares o (window_at tokens m (m - o) k) (window_at tokens m (m - o) (S k)).
Proof.
  intros Ho Hfull. pose proof Hfull as Hlen.
  rewrite window_at_length in Hlen.
  unfold shares. rewrite Hfull, window_at_length.
  split; [lia|]. split; [simpl; lia|].
  unfold window_at.
  rewrite take_take, Nat.min_l by lia.
  replace m with ((m - o) + o)%nat at 2 by lia.
  rewrite <- take_drop_commute, drop_drop.
  f_equal. f_equal. simpl. lia.
Qed.

Lemma window_at_short_suffix tokens m s k :
  (length (window_at tokens m s k) < m)%nat ->
  window_at tokens m s (S k) = drop s (window_at tokens m s k).
Proof.
  intros Hshort. rewrite window_at_length in Hshort.
  unfold window_at.
  rewrite (take_ge (drop (k * s) tokens)) by (rewrite length_drop; lia).
  rewrite take_ge by (rewrite length_drop; simpl; lia).
  rewrite drop_drop. f_equal. simpl. lia.
Qed.

(** ** Claims about the chunker *)

(** The function has no [raise]: whatever the arguments, a run that ends
    returns a list. *)
Lemma chunk_text_tokenwise_never_raises encode decode fuel text max_tokens overlap e :
  chunk_text_tokenwise encode decode fuel text max_tokens overlap
  <> Some (Raise e).
Proof.
  unfold chunk_text_tokenwise. destruct (encode text); [discriminate|].
  destruct (chunk_loop _ _ _ _ _ _ _); discriminate.
Qed.

(** C1. A call with [overlap >= max_tokens] is not rejected: the text is
    encoded and, when it has no token, the call returns the empty list; when
    it has a token, no number of iterations reaches the end of the loop, and
    no exception is raised on the way. *)
Theorem chunk_text_tokenwise_overlap_not_rejected
    encode decode text (max_tokens overlap : Z) :
  max_tokens <= overlap ->
  (encode text = [] ->
     forall fuel, chunk_text_tokenwise encode decode fuel text max_tokens overlap
                  = Some (Return []))
  /\ (encode text <> [] ->
     forall fuel, chunk_text_tokenwise encode decode fuel text max_tokens overlap
                  = None).
Proof.
  intros Hcfg. split.
  - intros Hempty fuel. unfold chunk_text_tokenwise. now rewrite Hempty.
  - intros Hne fuel. rewrite chunk_text_tokenwise_windows.
    unfold chunk_windows. destruct (encode text) as [|t ts] eqn:Htok; [congruence|].
    rewrite window_loop_diverges; [reflexivity | discriminate | lia | lia].
Qed.

(** The theorem at [chunk_text_tokenwise("hello", 100, 100)]. *)
Lemma chunk_text_tokenwise_overlap_not_rejected_run :
  100 <= 100
  /\ char_encode "hello" <> []
  /\ forall fuel, chunk_text_tokenwise char_encode char_decode fuel "hello" 100 100
                  = None.
Proof.
  split; [lia|]. split; [discriminate|].
  apply (chunk_text_tokenwise_overlap_not_rejected char_encode char_decode
           "hello" 100 100); [lia | discriminate].
Defined.

(** A text of four tokens, shorter than [max_tokens = 5], gives two chunks
    with [overlap = 2]: the loop takes a second window at offset 3. *)
Lemma short_text_two_chunks :
  0 <= 2 < 5
  /\ (0 < length (char_encode "abcd") < 5)%nat
  /\ chunk_text_tokenwise char_encode char_decode 5 "abcd" 5 2
     = Some (Return ["abcd"; "d"]).
Proof. repeat split; try lia; try (simpl; lia). Qed.

(** C3 (amended). The empty string gives zero chunks (its encoding being
    empty), and a text with at least one token gives exactly one chunk if
    and only if it has at most [max_tokens - overlap] tokens. *)
Theorem chunk_empty_and_single encode decode :
  encode "" = [] ->
  (forall fuel max_tokens overlap,
     chunk_text_tokenwise encode decode fuel "" max_tokens overlap
     = Some (Return []))
  /\ (forall text (max_tokens overlap : Z) fuel,
        0 <= overlap < max_tokens ->
        encode text <> [] ->
        (length (encode text) < fuel)%nat ->
        exists chunks,
          chunk_text_tokenwise encode decode fuel text max_tokens overlap
          = Some (Return chunks)
          /\ (length chunks = 1%nat
              <-> Z.of_nat (length (encode text)) <= max_tokens - overlap)).
Proof.
  intros Hempty. split.
  - intros fuel max_tokens overlap. unfold chunk_text_tokenwise.
    now rewrite Hempty.
  - intros text max_tokens overlap fuel Hcfg Hne Hfuel.
    destruct (chunk_windows_run encode text max_tokens overlap fuel Hcfg Hfuel)
      as (c & Hrun & Hend & Hlast).
    rewrite chunk_text_tokenwise_windows, Hrun. simpl.
    eexists. split; [reflexivity|].
    rewrite length_fmap, windows_upto_length.
    assert (Hpos : (0 < length (encode text))%nat)
      by (destruct (encode text); [congruence | simpl; lia]).
    split.
    + intros ->. lia.
    + intros Hfit.
      assert (0 < c)%nat as Hc by (destruct c; [simpl in Hend; lia | lia]).
      specialize (Hlast Hc).
      assert (Hs : Z.to_nat (max_tokens - overlap) <> 0%nat) by lia.
      destruct c as [|[|c]]; [lia | reflexivity |].
      exfalso. simpl in Hlast. nia.
Qed.

(** The theorem for the sample encoder. *)
Lemma chunk_empty_and_single_run :
  char_encode "" = []
  /\ (forall fuel max_tokens overlap,
        chunk_text_tokenwise char_encode char_decode fuel "" max_tokens overlap
        = Some (Return []))
  /\ (forall text (max_tokens overlap : Z) fuel,
        0 <= overlap < max_tokens ->
        char_encode text <> [] ->
        (length (char_encode text) < fuel)%nat ->
        exists chunks,
          chunk_text_tokenwise char_encode char_decode fuel text max_tokens overlap
          = Some (Return chunks)
          /\ (length chunks = 1%nat
              <-> Z.of_nat (length (char_encode text)) <= max_tokens - overlap)).
Proof.
  split; [reflexivity|].
  apply (chunk_empty_and_single char_encode char_decode). reflexivity.
Defined.

(** With [max_tokens = 10] and [overlap = 8] a text of 11 tokens gives six
    chunks; the second has 9 tokens and the third 7, so these two, neither of
    them the last chunk, do not share 8 tokens. *)
Lemma overlap_lost_before_last_chunk :
  0 <= 8 < 10
  /\ exists ws w w',
       chunk_windows char_encode 12 "abcdefghijk" 10 8 = Some ws
       /\ ws !! 1%nat = Some w /\ ws !! 2%nat = Some w'
       /\ (3 < length ws)%nat
       /\ (forall h : shares 8 w w', False).
Proof.
  split; [lia|].
  eexists _, _, _. split; [vm_compute; reflexivity|].
  split; [reflexivity|]. split; [reflexivity|]. split; [simpl; lia|].
  intros (_ & Hlen & _). simpl in Hlen. lia.
Qed.

(** C7 (amended). With [0 <= overlap < max_tokens] every chunk is the
    decoding of a window of at most [max_tokens] tokens; a window of exactly
    [max_tokens] tokens shares [overlap] tokens with the next one; a shorter
    window is followed by what is left of it after [max_tokens - overlap]
    tokens. *)
Theorem chunk_windows_bounded_overlap
    encode decode text (max_tokens overlap : Z) fuel :
  0 <= overlap < max_tokens ->
  (length (encode text) < fuel)%nat ->
  exists ws,
    chunk_windows encode fuel text max_tokens overlap = Some ws
    /\ chunk_text_tokenwise encode decode fuel text max_tokens overlap
       = Some (Return (decode <$> ws))
    /\ Forall (fun w => Z.of_nat (length w) <= max_tokens) ws
    /\ (forall k w w',
          ws !! k = Some w -> ws !! S k = Some w' ->
          Z.of_nat (length w) = max_tokens ->
          shares (Z.to_nat overlap) w w')
    /\ (forall k w w',
          ws !! k = Some w -> ws !! S k = Some w' ->
          Z.of_nat (length w) < max_tokens ->
          w' = drop (Z.to_nat (max_tokens - overlap)) w).
Proof.
  intros Hcfg Hfuel.
  destruct (chunk_windows_run encode text max_tokens overlap fuel Hcfg Hfuel)
    as (c & Hrun & _).
  eexists. split; [exact Hrun|].
  split; [now rewrite chunk_text_tokenwise_windows, Hrun|].
  assert (Hat : forall k w,
             windows_upto (encode text) (Z.to_nat max_tokens)
               (Z.to_nat (max_tokens - overlap)) c !! k = Some w ->
             w = window_at (encode text) (Z.to_nat max_tokens)
                   (Z.to_nat (max_tokens - overlap)) k).
  { intros k w Hk.
    assert (k < c)%nat as Hlt.
    { apply lookup_lt_Some in Hk. now rewrite windows_upto_length in Hk. }
    rewrite windows_upto_lookup in Hk by exact Hlt. congruence. }
  split; [|split].
  - apply Forall_lookup. intros k w Hk. apply Hat in Hk. subst w.
    rewrite window_at_length. lia.
  - intros k w w' Hk Hk' Hfull.
    apply Hat in Hk, Hk'. subst w w'.
    replace (Z.to_nat (max_tokens - overlap))
      with (Z.to_nat max_tokens - Z.to_nat overlap)%nat in * by lia.
    apply window_at_full_shares; lia.
  - intros k w w' Hk Hk' Hshort.
    apply Hat in Hk, Hk'. subst w w'.
    apply window_at_short_suffix. lia.
Qed.

(** The theorem at a text of seven tokens with [max_tokens = 4] and
    [overlap = 2]. *)
Lemma chunk_windows_bounded_overlap_run :
  0 <= 2 < 4
  /\ (length (char_encode "abcdefg") < 8)%nat
  /\ exists ws,
    chunk_windows char_encode 8 "abcdefg" 4 2 = Some ws
    /\ chunk_text_tokenwise char_encode char_decode 8 "abcdefg" 4 2
       = Some (Return (char_decode <$> ws))
    /\ Forall (fun w => Z.of_nat (length w) <= 4) ws
    /\ (forall k w w',
          ws !! k = Some w -> ws !! S k = Some w' ->
          Z.of_nat (length w) = 4 ->
          shares (Z.to_nat 2) w w')
    /\ (forall k w w',
          ws !! k = Some w -> ws !! S k = Some w' ->
          Z.of_nat (length w) < 4 ->
          w' = drop (Z.to_nat (4 - 2)) w).
Proof.
  split; [lia|]. split; [simpl; lia|].
  apply (chunk_windows_bounded_overlap char_encode char_decode "abcdefg" 4 2 8);
    [lia | simpl; lia].
Defined.

(** ** Claims about the index collection and the ingestion of a file *)

Section CollectionFacts.

Variable vector : Type.

(** A batch is the union of its positions, a later position of an id
    winning over an earlier one, laid over the collection. *)
Lemma coll_add_union ids documents metadatas embeddings
    (c : gmap string (entry vector)) :
  coll_add vector ids documents metadatas embeddings c
  = list_to_map
      (reverse (batch_entry vector
                  <$> zip ids (zip documents (zip metadatas embeddings))))
    ∪ c.
Proof.
  unfold coll_add.
  induction (zip ids (zip documents (zip metadatas embeddings)))
    as [|x l IH] using rev_ind.
  - simpl. now rewrite (left_id_L ∅ (∪)).
  - rewrite foldl_app, fmap_app, reverse_app. simpl.
    rewrite IH. destruct x as [id [d [m e]]]. simpl.
    unfold upsert. now rewrite insert_union_l.
Qed.

Lemma coll_add_twice ids documents metadatas embeddings
    (c : gmap string (entry vector)) :
  coll_add vector ids documents metadatas embeddings
    (coll_add vector ids documents metadatas embeddings c)
  = coll_add vector ids documents metadatas embeddings c.
Proof.
  rewrite !coll_add_union.
  rewrite (assoc_L (∪)). now rewrite (idemp_L (∪)).
Qed.

(** C4. Against the Index Store of the spec, inserting under an id that is
    already there leaves one entry for it: inserting the same chunk twice,
    alone or in a batch through [insert_chunks_to_collection], gives the
    collection that inserting it once gives. *)
Theorem insert_chunks_idempotent :
  (forall id (e : entry vector) c, upsert vector id e (upsert vector id e c)
                                   = upsert vector id e c)
  /\ (forall c ids documents metadatas embeddings,
        insert_chunks_to_collection vector
          (insert_chunks_to_collection vector c ids documents metadatas
             embeddings)
          ids documents metadatas embeddings
        = insert_chunks_to_collection vector c ids documents metadatas
            embeddings)
  /\ (forall id (e : entry vector) c,
        size (upsert vector id e (upsert vector id e c))
        = size (upsert vector id e c)).
Proof.
  split; [|split].
  - intros id e c. unfold upsert. apply insert_insert_eq.
  - intros c ids documents metadatas [embs|]; simpl; apply coll_add_twice.
  - intros id e c. unfold upsert. now rewrite insert_insert_eq.
Qed.

End CollectionFacts.

Section IngestionFacts.

Variable encode : string -> list token.
Variable decode : list token -> string.
Variable vector : Type.
Variable uuid4 : nat -> string.

(** A text of 1000 tokens is cut, with [max_tokens = 500] and
    [overlap = 100], at the offsets 0, 400 and 800. *)
Lemma chunk_thousand_tokens text fuel :
  length (encode text) = 1000%nat ->
  (1000 < fuel)%nat ->
  chunk_text_tokenwise encode decode fuel text 500 100
  = Some (Return [ decode (py_slice (encode text) 0 500);
                   decode (py_slice (encode text) 400 900);
                   decode (py_slice (encode text) 800 1300) ]).
Proof.
  intros Hlen Hfuel.
  destruct (chunk_windows_run encode text 500 100 fuel) as (c & Hrun & Hend & Hlast);
    [lia | lia |].
  rewrite chunk_text_tokenwise_windows, Hrun.
  assert (c = 3%nat) as ->.
  { rewrite Hlen in *. change (Z.to_nat (500 - 100)) with 400%nat in *.
    destruct c as [|[|[|[|c]]]]; simpl in *; lia. }
  change 500 with (0 + 500) at 3.
  change 900 with (400 + 500).
  change 1300 with (800 + 500).
  rewrite !py_slice_window by lia.
  reflexivity.
Qed.

(** C8. A PDF of two pages, the first with 1000 tokens and the second
    skipped as empty or blank, ingested with [max_tokens = 500] and
    [overlap = 100]: three chunks are indexed, all of page 1, cut at the
    token offsets 0, 400 and 800 and numbered 0, 1, 2; page 2 adds nothing. *)
Theorem two_page_document
    (file : source_file) (course : string) (lecture : option string)
    (embed_many : list string -> outcome (list vector))
    (st : ingest_state vector) (page1 : string) (page2 : page_read)
    (fuel : nat) (vs : list vector) :
  file_suffix file = ".pdf" ->
  file_pdf file = Return [PageText (Some page1); page2] ->
  skipped page1 = false ->
  skipped (page_text page2) = true ->
  length (encode page1) = 1000%nat ->
  (1000 < fuel)%nat ->
  embed_many [ decode (py_slice (encode page1) 0 500);
               decode (py_slice (encode page1) 400 900);
               decode (py_slice (encode page1) 800 1300) ] = Return vs ->
  process_single_file encode decode vector uuid4 fuel file course lecture
    embed_many 500 100 st
  = Some (Return 3,
          {| coll :=
               insert_chunks_to_collection vector (coll vector st)
                 [ uuid4 (uuids_drawn vector st);
                   uuid4 (S (uuids_drawn vector st));
                   uuid4 (S (S (uuids_drawn vector st))) ]
                 [ decode (py_slice (encode page1) 0 500);
                   decode (py_slice (encode page1) 400 900);
                   decode (py_slice (encode page1) 800 1300) ]
                 ((fun i => {| course_id := course; lecture_id := lecture;
                               source := file_name file;
                               page_or_slide := Some 1;
                               chunk_index := i |}) <$> [0; 1; 2])
                 (Some vs);
             uuids_drawn := S (S (S (uuids_drawn vector st))) |}).
Proof.
  intros Hsuffix Hpdf Hpage1 Hpage2 Hlen Hfuel Hembed.
  unfold process_single_file, extract_parts.
  rewrite Hsuffix, Hpdf. simpl.
  assert (Hor : or_empty (Some page1) = page1) by reflexivity.
  rewrite Hpage1, Hpage2.
  rewrite (chunk_thousand_tokens page1 fuel Hlen Hfuel). simpl.
  rewrite Hembed. reflexivity.
Qed.

End IngestionFacts.

(** The theorem at a page of 1000 one-character tokens followed by an empty
    page. *)
Lemma two_page_document_run :
  file_suffix two_page_pdf = ".pdf"
  /\ skipped long_page = false
  /\ length (char_encode long_page) = 1000%nat
  /\ process_single_file char_encode char_decode Z numbered_uuid 1001
       two_page_pdf "calculus101" (Some "lecture_02") zero_embedder 500 100
       empty_store
     = Some (Return 3,
          {| coll :=
               insert_chunks_to_collection Z ∅
                 [ numbered_uuid 0; numbered_uuid 1; numbered_uuid 2 ]
                 [ char_decode (py_slice (char_encode long_page) 0 500);
                   char_decode (py_slice (char_encode long_page) 400 900);
                   char_decode (py_slice (char_encode long_page) 800 1300) ]
                 ((fun i => {| course_id := "calculus101";
                               lecture_id := Some "lecture_02";
                               source := "lecture.pdf";
                               page_or_slide := Some 1;
                               chunk_index := i |}) <$> [0; 1; 2])
                 (Some [0; 0; 0]);
             uuids_drawn := 3 |}).
Proof.
  split; [reflexivity|]. split; [vm_compute; reflexivity|].
  split; [vm_compute; reflexivity|].
  apply (two_page_document char_encode char_decode Z numbered_uuid
           two_page_pdf "calculus101" (Some "lecture_02") zero_embedder
           empty_store long_page (PageText (Some "")) 1001 [0; 0; 0]).
  - reflexivity.
  - reflexivity.
  - vm_compute; reflexivity.
  - reflexivity.
  - vm_compute; reflexivity.
  - lia.
  - reflexivity.
Defined.

(** ** Claims about the query side *)

(** Unfolds the statements of the monad down to functions of the world. *)
Ltac unfold_statements :=
  unfold try_except, complete, retrieve, text_of, subscript, save_quiz,
    outgoing, getenv, lift, print, raise, mbind, M_bind, mret, M_ret.

(** A score that is a number is above the threshold or at most the
    threshold. *)
Lemma not_nan_spec (s : float) :
  PrimFloat.is_nan s = false -> Prim2SF s <> S754_nan.
Proof.
  unfold PrimFloat.is_nan. rewrite FloatAxioms.eqb_spec. intros H Hnan.
  rewrite Hnan in H. discriminate.
Qed.

Lemma SFltb_SFleb_finite (m : positive) (e : Z) (x : spec_float) :
  x <> S754_nan ->
  (SFltb (S754_finite false m e) x = false
   <-> SFleb x (S754_finite false m e) = true).
Proof.
  intros Hnan. unfold SFltb, SFleb.
  destruct x as [[|]|[|]| |[|] m' e']; try congruence; cbn [SFcompare];
    try (split; congruence).
  rewrite (Z.compare_antisym e e').
  destruct (e ?= e')%Z; cbn [CompOpp]; try (split; congruence).
  pose proof (Pos.compare_cont_antisym m' m Eq) as Hanti.
  cbn [CompOpp] in Hanti. rewrite <- Hanti.
  destruct (Pos.compare_cont Eq m' m); cbn [CompOpp]; split; congruence.
Qed.

Lemma not_above_threshold (s : float) :
  PrimFloat.is_nan s = false ->
  (PrimFloat.ltb threshold s = false <-> PrimFloat.leb s threshold = true).
Proof.
  intros Hnan. apply not_nan_spec in Hnan.
  rewrite FloatAxioms.ltb_spec, FloatAxioms.leb_spec.
  assert (Ht : exists m e, Prim2SF threshold = S754_finite false m e)
    by (eexists _, _; vm_compute; reflexivity).
  destruct Ht as (m & e & ->).
  now apply SFltb_SFleb_finite.
Qed.

Section EngineFacts.

Variable llm_complete : string -> outcome completion.
Variable query_engine_query : string -> outcome response.
Variable youtube_search : string -> Z -> outcome (list search_item).
Variable json_loads : string -> outcome json.

(** What [rewrite_query] does, by the answer of the model. *)
Lemma rewrite_query_run original_query w :
  rewrite_query llm_complete original_query w
  = let w1 := with_calls (calls w ++ [CallLlm (rewrite_prompt original_query)]) w in
    match llm_complete (rewrite_prompt original_query) with
    | Return r =>
        match text r with
        | Some t => (Return (strip t), w1)
        | None =>
            (Return original_query,
             with_stdout (stdout w1 ++ ["Error rewriting query: response has no text"]) w1)
        end
    | Raise e =>
        (Return original_query,
         with_stdout (stdout w1 ++ ["Error rewriting query: " +:+ exn_str e]) w1)
    end.
Proof.
  unfold rewrite_query. unfold_statements.
  simpl. destruct (llm_complete _) as [[[t|]]|e]; reflexivity.
Qed.

(** C9. [rewrite_query] returns the stripped text of the model's answer when
    the model answers with a text, returns the original query when the model
    call raises or the answer has no text, and never raises. *)
Theorem rewrite_query_falls_back original_query w :
  (forall r t,
      llm_complete (rewrite_prompt original_query) = Return r ->
      text r = Some t ->
      (rewrite_query llm_complete original_query w).1 = Return (strip t))
  /\ (forall e,
        llm_complete (rewrite_prompt original_query) = Raise e ->
        (rewrite_query llm_complete original_query w).1 = Return original_query)
  /\ (forall r,
        llm_complete (rewrite_prompt original_query) = Return r ->
        text r = None ->
        (rewrite_query llm_complete original_query w).1 = Return original_query)
  /\ (forall e,
        (rewrite_query llm_complete original_query w).1 <> Raise e).
Proof.
  rewrite rewrite_query_run. cbv zeta.
  repeat split.
  - intros r t -> ->. reflexivity.
  - intros e ->. reflexivity.
  - intros r -> ->. reflexivity.
  - intros e. destruct (llm_complete _) as [[[t|]]|e']; discriminate.
Qed.

(** The loop over the search items leaves the world as it is. *)
Lemma items_loop_world items acc w :
  (items_loop items acc w).2 = w.
Proof.
  revert acc. induction items as [|item rest IH]; intros acc; [reflexivity|].
  simpl. unfold_statements.
  destruct (item_video_id item); [|reflexivity].
  destruct (item_title item); [|reflexivity].
  destruct (item_channel_title item); [|reflexivity].
  destruct (item_description item); [|reflexivity].
  destruct (item_thumbnail_url item); [|reflexivity].
  apply IH.
Qed.

(** The video search always returns a list, and makes exactly one call to
    the video API, with the query followed by [" tutorial education"]. *)
Lemma search_educational_videos_run query_str max_results w :
  exists found w',
    search_educational_videos youtube_search query_str max_results w
    = (Return found, w')
    /\ calls w' = calls w ++ [CallVideoSearch (query_str +:+ " tutorial education")
                                max_results].
Proof.
  unfold search_educational_videos. unfold_statements.
  simpl. destruct (youtube_search _ _) as [items|e].
  - pose proof (items_loop_world items []
        (with_calls (calls w ++ [CallVideoSearch (query_str +:+ " tutorial education")
                                   max_results]) w)) as Hw.
    destruct (items_loop items [] _) as [[found|e] w'] eqn:Hloop;
      simpl in Hw; subst w'; eexists _, _; split; reflexivity.
  - eexists _, _; split; reflexivity.
Qed.

(** C5. Confidence is low when nothing was retrieved; it is high exactly
    when some retrieved node has a score above 0.7; so it is low exactly
    when there is no node or no node's score is above 0.7, which for scores
    that are numbers says that every score is at most 0.7. *)
Theorem low_confidence_rule (r : response) :
  (source_nodes r = [] -> _is_low_confidence r = true)
  /\ (_is_low_confidence r = false
      <-> exists n, n ∈ source_nodes r
                    /\ PrimFloat.ltb threshold (score n) = true)
  /\ (_is_low_confidence r = true
      <-> source_nodes r = []
          \/ Forall (fun n => PrimFloat.ltb threshold (score n) = false)
               (source_nodes r))
  /\ (Forall (fun n => PrimFloat.is_nan (score n) = false) (source_nodes r) ->
      (_is_low_confidence r = true
       <-> source_nodes r = []
           \/ Forall (fun n => PrimFloat.leb (score n) threshold = true)
                (source_nodes r))).
Proof.
  assert (Hloop : forall nodes,
             (scores_loop nodes = false
              <-> exists n, n ∈ nodes /\ PrimFloat.ltb threshold (score n) = true)
             /\ (scores_loop nodes = true
                 <-> Forall (fun n => PrimFloat.ltb threshold (score n) = false) nodes)).
  { induction nodes as [|n rest [IHf IHt]]; simpl.
    - split; split; try discriminate; auto.
      intros (n & Hin & _). inversion Hin.
    - destruct (PrimFloat.ltb threshold (score n)) eqn:Hn; split; split.
      + intros _. exists n. split; [left | exact Hn].
      + reflexivity.
      + discriminate.
      + intros H. inversion H; congruence.
      + intros H. apply IHf in H as (x & Hx & Hs). exists x. split; [now right | exact Hs].
      + intros (x & Hx & Hs). apply IHf.
        inversion Hx; subst; [congruence | eauto].
      + intros H. constructor; [exact Hn | now apply IHt].
      + intros H. inversion H; subst. now apply IHt. }
  assert (Hleb : forall nodes,
             Forall (fun n => PrimFloat.is_nan (score n) = false) nodes ->
             (Forall (fun n => PrimFloat.ltb threshold (score n) = false) nodes
              <-> Forall (fun n => PrimFloat.leb (score n) threshold = true) nodes)).
  { intros nodes Hnum. rewrite !Forall_forall in *.
    split; intros H n Hn; apply not_above_threshold; auto. }
  unfold _is_low_confidence.
  destruct (source_nodes r) as [|n rest] eqn:Hnodes.
  - repeat split; auto; try discriminate.
    intros (n & Hin & _). inversion Hin.
  - destruct (Hloop (n :: rest)) as [Hf Ht].
    split; [discriminate|]. split; [exact Hf|].
    split; [|intros Hnum; rewrite <- (Hleb _ Hnum)];
      (split; [intros H; right; now apply Ht
              | intros [H|H]; [discriminate | now apply Ht]]).
Qed.

(** C6. [query] rewrites the question, retrieves with the rewritten query,
    and then calls the video search exactly when [get_videos] is set or the
    confidence is low, with the question as the caller gave it; without that
    call the list of videos is empty. *)
Theorem query_enrichment question (get_videos : bool) w :
  exists rewritten w1,
    rewrite_query llm_complete question w = (Return rewritten, w1)
    /\ (forall r,
          query_engine_query rewritten = Return r ->
          exists found w2,
            query llm_complete query_engine_query youtube_search question
              get_videos w
            = (Return {| answer := response_str r;
                         result_source_nodes := source_nodes r;
                         videos := found |}, w2)
            /\ calls w2
               = calls w
                 ++ [CallLlm (rewrite_prompt question); CallQueryEngine rewritten]
                 ++ (if get_videos || _is_low_confidence r
                     then [CallVideoSearch (question +:+ " tutorial education") 5]
                     else [])
            /\ (get_videos || _is_low_confidence r = false -> found = []))
    /\ (forall e,
          query_engine_query rewritten = Raise e ->
          exists w2,
            query llm_complete query_engine_query youtube_search question
              get_videos w = (Raise e, w2)
            /\ calls w2
               = calls w
                 ++ [CallLlm (rewrite_prompt question); CallQueryEngine rewritten]).
Proof.
  destruct (rewrite_query llm_complete question w) as [rw w1] eqn:Hrw.
  assert (Hcalls : exists rewritten, rw = Return rewritten
            /\ calls w1 = calls w ++ [CallLlm (rewrite_prompt question)]).
  { rewrite rewrite_query_run in Hrw. cbv zeta in Hrw.
    destruct (llm_complete _) as [[[t|]]|e]; inversion Hrw; subst;
      eexists; split; reflexivity. }
  destruct Hcalls as (rewritten & -> & Hcalls).
  exists rewritten, w1. split; [reflexivity|].
  unfold query. unfold_statements.
  rewrite Hrw. simpl. split.
  - intros r ->.
    destruct (get_videos || _is_low_confidence r) eqn:Htest.
    + match goal with
      | |- context [search_educational_videos _ ?q ?n ?w0] =>
          destruct (search_educational_videos_run q n w0)
            as (found & w2 & Hsearch & Hw2)
      end.
      rewrite Hsearch. exists found, w2. split; [reflexivity|].
      split; [|discriminate].
      rewrite Hw2. simpl. rewrite Hcalls. now rewrite <- !app_assoc.
    + eexists _, _. split; [reflexivity|]. simpl.
      split; [|reflexivity].
      rewrite Hcalls. now rewrite <- !app_assoc.
  - intros e ->. eexists. split; [reflexivity|].
    simpl. rewrite Hcalls. now rewrite <- !app_assoc.
Qed.

(** The model's answer, valid or not, is saved and returned. *)
Lemma generate_quiz_run copy topic context num_questions w :
  generate_quiz llm_complete json_loads copy topic context num_questions w
  = let prompt := quiz_prompt copy topic context num_questions in
    let w1 := with_calls (calls w ++ [CallLlm prompt]) w in
    let failed e := (Return None,
                     with_stdout (stdout w1 ++ ["Error generating quiz: " +:+ exn_str e]) w1) in
    match llm_complete prompt with
    | Raise e => failed e
    | Return r =>
        match text r with
        | None => failed (Exn "TypeError" "response has no text")
        | Some t =>
            match json_loads t with
            | Raise e => failed e
            | Return quiz_data =>
                match db_fault w with
                | Some e => failed e
                | None =>
                    (Return (Some quiz_data),
                     with_quizzes
                       (quiz_rows w ++ [ {| row_id := quiz_seq w + 1;
                                            row_topic := topic;
                                            row_questions := quiz_data;
                                            row_created_at := clock w |} ])
                       (quiz_seq w + 1) w1)
                end
            end
        end
    end.
Proof.
  unfold generate_quiz. unfold_statements.
  simpl. destruct (llm_complete _) as [[[t|]]|e]; try reflexivity.
  simpl. destruct (json_loads t) as [q|e]; try reflexivity.
  simpl. destruct (db_fault w); reflexivity.
Qed.

(** C2 (amended). [generate_quiz] never raises. When the model answers with
    a text that [json.loads] parses and the store takes the row, the parsed
    value is returned as it is, whatever its shape, after it was saved under
    the topic. When the model call raises, the answer has no text, the text
    is not JSON or the store fails, the result is [None] and no row is
    added. *)
Theorem generate_quiz_unvalidated copy topic context num_questions w :
  let prompt := quiz_prompt copy topic context num_questions in
  let run := generate_quiz llm_complete json_loads copy topic context
               num_questions w in
  let failed := run.1 = Return None /\ quiz_rows run.2 = quiz_rows w in
  (forall r t quiz_data,
      llm_complete prompt = Return r -> text r = Some t ->
      json_loads t = Return quiz_data -> db_fault w = None ->
      run.1 = Return (Some quiz_data)
      /\ quiz_rows run.2
         = quiz_rows w ++ [ {| row_id := quiz_seq w + 1; row_topic := topic;
                               row_questions := quiz_data;
                               row_created_at := clock w |} ])
  /\ (forall e, llm_complete prompt = Raise e -> failed)
  /\ (forall r, llm_complete prompt = Return r -> text r = None -> failed)
  /\ (forall r t e,
        llm_complete prompt = Return r -> text r = Some t ->
        json_loads t = Raise e -> failed)
  /\ (forall r t quiz_data e,
        llm_complete prompt = Return r -> text r = Some t ->
        json_loads t = Return quiz_data -> db_fault w = Some e -> failed)
  /\ (forall e, run.1 <> Raise e).
Proof.
  cbv zeta. rewrite generate_quiz_run. cbv zeta.
  split; [|split; [|split; [|split; [|split]]]].
  - intros r t quiz_data -> -> -> ->. split; reflexivity.
  - intros e ->. split; reflexivity.
  - intros r -> ->. split; reflexivity.
  - intros r t e -> -> ->. split; reflexivity.
  - intros r t quiz_data e -> -> -> ->. split; reflexivity.
  - intros e.
    destruct (llm_complete _) as [[[t|]]|e']; simpl; try discriminate.
    destruct (json_loads t) as [q|e']; try discriminate.
    destruct (db_fault w); discriminate.
Qed.

End EngineFacts.

(** An answer of the model whose question points at option 5 of 4 is
    returned as the quiz, and a row holding it is added to the table. *)
Lemma bad_quiz_returned_and_saved :
  spec_valid_quiz bad_quiz = false
  /\ (generate_quiz bad_quiz_llm sample_loads BackendCopy "Sets" "A set is ..." 1
        quiet_world).1 = Return (Some bad_quiz)
  /\ quiz_rows (generate_quiz bad_quiz_llm sample_loads BackendCopy "Sets"
                  "A set is ..." 1 quiet_world).2
     = [ {| row_id := 1; row_topic := "Sets"; row_questions := bad_quiz;
            row_created_at := 0 |} ].
Proof. split; [reflexivity|]. split; vm_compute; reflexivity. Qed.

(** A model that times out leaves the query as it was; an answer is
    stripped of the blanks around it. *)
Example rewrite_query_timeout :
  (rewrite_query failing_llm "Explain OOP" quiet_world).1
  = Return "Explain OOP".
Proof. reflexivity. Qed.

Example rewrite_query_answer :
  (rewrite_query echo_llm "Explain OOP" quiet_world).1
  = Return "object oriented programming concepts".
Proof. reflexivity. Qed.

(** A maximum score of 0.85 is high confidence and of 0.4 is low. *)
Example confident_is_high : _is_low_confidence confident_response = false.
Proof. reflexivity. Qed.

Example doubtful_is_low : _is_low_confidence doubtful_response = true.
Proof. reflexivity. Qed.

(** With high confidence and no request the video search is not called;
    with low confidence it is called with the question as given, not with
    the rewritten query. *)
Example query_confident_run :
  (query echo_llm (fun _ => Return confident_response) no_videos
     "Explain OOP" false quiet_world).1
  = Return {| answer := "An answer.";
              result_source_nodes := source_nodes confident_response;
              videos := [] |}
  /\ calls (query echo_llm (fun _ => Return confident_response) no_videos
              "Explain OOP" false quiet_world).2
     = [ CallLlm (rewrite_prompt "Explain OOP");
         CallQueryEngine "object oriented programming concepts" ].
Proof. split; vm_compute; reflexivity. Qed.

Example query_doubtful_run :
  calls (query echo_llm (fun _ => Return doubtful_response) no_videos
           "Explain OOP" false quiet_world).2
  = [ CallLlm (rewrite_prompt "Explain OOP");
      CallQueryEngine "object oriented programming concepts";
      CallVideoSearch "Explain OOP tutorial education" 5 ].
Proof. vm_compute; reflexivity. Qed.

Section ConstructionFacts.

Variable discovery_build : string -> outcome unit.
Variable load_index : outcome unit.
Variable new_llm : option string -> outcome unit.
Variable as_query_engine : outcome unit.

(** C10. Without [YOUTUBE_API_KEY] in the environment the construction of a
    [YouTubeSearcher] raises a [ValueError], and so the construction of the
    query engine raises too: the [ValueError] of the searcher once the
    earlier steps went through, and otherwise the error of an earlier
    step. *)
Theorem engine_needs_youtube_key w :
  environ w !! "YOUTUBE_API_KEY" = None ->
  YouTubeSearcher_init discovery_build w
  = (Raise (Exn "ValueError" "YouTube API key not found in environment variables"), w)
  /\ (exists e,
        (EnhancedQueryEngine_init discovery_build load_index new_llm
           as_query_engine w).1 = Raise e)
  /\ (persist_dir_exists w = true ->
      load_index = Return tt ->
      new_llm (environ w !! "GROQ_API_KEY") = Return tt ->
      (EnhancedQueryEngine_init discovery_build load_index new_llm
         as_query_engine w).1
      = Raise (Exn "ValueError" "YouTube API key not found in environment variables")).
Proof.
  intros Hkey.
  assert (Hinit : YouTubeSearcher_init discovery_build w
                  = (Raise (Exn "ValueError" "YouTube API key not found in environment variables"), w)).
  { unfold YouTubeSearcher_init. unfold_statements. now rewrite Hkey. }
  split; [exact Hinit|].
  unfold EnhancedQueryEngine_init. unfold_statements.
  destruct (persist_dir_exists w); simpl.
  - destruct load_index as [[]|e1]; simpl.
    + destruct (new_llm _) as [[]|e2]; simpl.
      * rewrite Hinit. split; [eexists; reflexivity | reflexivity].
      * split; [eexists; reflexivity | discriminate].
    + split; [eexists; reflexivity | discriminate].
  - split; [eexists; reflexivity | discriminate].
Qed.

End ConstructionFacts.

(** The theorem in a world with an empty environment where every earlier
    step of the construction succeeds. *)
Lemma engine_needs_youtube_key_run :
  environ quiet_world !! "YOUTUBE_API_KEY" = None
  /\ YouTubeSearcher_init (fun _ => Return tt) quiet_world
     = (Raise (Exn "ValueError" "YouTube API key not found in environment variables"),
        quiet_world)
  /\ (EnhancedQueryEngine_init (fun _ => Return tt) (Return tt)
        (fun _ => Return tt) (Return tt) quiet_world).1
     = Raise (Exn "ValueError" "YouTube API key not found in environment variables").
Proof.
  pose proof (engine_needs_youtube_key (fun _ => Return tt) (Return tt)
                (fun _ => Return tt) (Return tt) quiet_world eq_refl)
    as (Hs & _ & He).
  split; [reflexivity|]. split; [exact Hs|].
  apply He; reflexivity.
Defined.

(** * Further properties *)

Import Embedding Enrichment Store Display MoreSamples.

(** ** The chunker *)

(** Consecutive strides of a list, put end to end, are its prefix. *)
Lemma concat_strides {A} (l : list A) (s c : nat) :
  concat ((fun k => take s (drop (k * s) l)) <$> seq 0 c) = take (c * s) l.
Proof.
  induction c as [|c IH]; [reflexivity|].
  rewrite seq_S, fmap_app, concat_app, IH. simpl.
  rewrite app_nil_r, take_take_drop. f_equal. lia.
Qed.

(** The run of the loop for any positive step, whatever the overlap. *)
Lemma chunk_windows_run_step encode text (max_tokens overlap : Z) fuel :
  0 <= max_tokens -> 1 <= max_tokens - overlap ->
  (length (encode text) < fuel)%nat ->
  exists c,
    chunk_windows encode fuel text max_tokens overlap
    = Some (windows_upto (encode text) (Z.to_nat max_tokens)
              (Z.to_nat (max_tokens - overlap)) c)
    /\ (length (encode text) <= c * Z.to_nat (max_tokens - overlap))%nat
    /\ ((0 < c)%nat ->
        ((c - 1) * Z.to_nat (max_tokens - overlap) < length (encode text))%nat).
Proof.
  intros Hm Hs Hfuel. unfold chunk_windows.
  destruct (encode text) as [|t ts] eqn:Htok.
  - exists 0%nat. simpl. repeat split; lia.
  - assert (Hpos : (0 < fuel)%nat) by lia.
    assert (Hlen : (length (t :: ts)
                    < 0 * Z.to_nat (max_tokens - overlap) + fuel)%nat)
      by (simpl in *; lia).
    destruct (window_loop_run (t :: ts) max_tokens (max_tokens - overlap)
                Hm Hs fuel 0%nat Hpos Hlen)
      as (c' & _ & Hrun & Hend & Hlast & _).
    exists c'. split; [exact Hrun|]. split; [exact Hend|]. exact Hlast.
Qed.

(** The number of windows is the quotient rounded up. *)
Lemma window_count_ceil (n s c : nat) :
  (0 < s)%nat -> (n <= c * s)%nat -> ((0 < c)%nat -> ((c - 1) * s < n)%nat) ->
  Z.of_nat c = (Z.of_nat n + Z.of_nat s - 1) / Z.of_nat s.
Proof.
  intros Hs Hend Hlast.
  destruct c as [|c].
  - assert (n = 0%nat) by lia. subst n.
    symmetry. apply Z.div_small. lia.
  - specialize (Hlast ltac:(lia)). simpl in Hlast. rewrite Nat.sub_0_r in Hlast.
    apply Z.div_unique
      with (r := Z.of_nat n + Z.of_nat s - 1 - Z.of_nat s * Z.of_nat (S c)).
    + left. nia.
    + lia.
Qed.

(** X1. With [0 <= overlap < max_tokens] the number of chunks is the number
    of tokens divided by [max_tokens - overlap], rounded up. *)
Theorem chunk_count encode decode text (max_tokens overlap : Z) fuel :
  0 <= overlap < max_tokens ->
  (length (encode text) < fuel)%nat ->
  exists chunks,
    chunk_text_tokenwise encode decode fuel text max_tokens overlap
    = Some (Return chunks)
    /\ Z.of_nat (length chunks)
       = (Z.of_nat (length (encode text)) + (max_tokens - overlap) - 1)
         / (max_tokens - overlap).
Proof.
  intros Hcfg Hfuel.
  destruct (chunk_windows_run_step encode text max_tokens overlap fuel)
    as (c & Hrun & Hend & Hlast); [lia | lia | exact Hfuel |].
  rewrite chunk_text_tokenwise_windows, Hrun. simpl.
  eexists. split; [reflexivity|].
  rewrite length_fmap, windows_upto_length.
  assert (Hs : (0 < Z.to_nat (max_tokens - overlap))%nat) by lia.
  rewrite (window_count_ceil _ _ c Hs Hend Hlast).
  rewrite Z2Nat.id by lia. reflexivity.
Qed.

(** The theorem at 1000 tokens with the default parameters: 3 chunks. *)
Lemma chunk_count_run :
  0 <= 100 < 500
  /\ (length (char_encode long_page) < 1001)%nat
  /\ exists chunks,
       chunk_text_tokenwise char_encode char_decode 1001 long_page 500 100
       = Some (Return chunks)
       /\ Z.of_nat (length chunks)
          = (Z.of_nat (length (char_encode long_page)) + (500 - 100) - 1)
            / (500 - 100).
Proof.
  split; [lia|]. split; [vm_compute; lia|].
  apply (chunk_count char_encode char_decode long_page 500 100 1001);
    [lia | vm_compute; lia].
Defined.

(** X2. With [0 <= overlap < max_tokens] no chunk comes from an empty
    window, and the first window starts the token sequence. *)
Theorem chunk_windows_nonempty encode decode text (max_tokens overlap : Z) fuel :
  0 <= overlap < max_tokens ->
  (length (encode text) < fuel)%nat ->
  exists ws,
    chunk_windows encode fuel text max_tokens overlap = Some ws
    /\ chunk_text_tokenwise encode decode fuel text max_tokens overlap
       = Some (Return (decode <$> ws))
    /\ Forall (fun w => (1 <= length w)%nat) ws
    /\ (forall w, ws !! 0%nat = Some w ->
                  w = take (Z.to_nat max_tokens) (encode text)).
Proof.
  intros Hcfg Hfuel.
  destruct (chunk_windows_run_step encode text max_tokens overlap fuel)
    as (c & Hrun & Hend & Hlast); [lia | lia | exact Hfuel |].
  eexists. split; [exact Hrun|].
  split; [now rewrite chunk_text_tokenwise_windows, Hrun|].
  split.
  - apply Forall_lookup. intros k w Hk.
    assert (k < c)%nat as Hlt.
    { apply lookup_lt_Some in Hk. now rewrite windows_upto_length in Hk. }
    rewrite windows_upto_lookup in Hk by exact Hlt.
    injection Hk as <-. rewrite window_at_length.
    specialize (Hlast ltac:(lia)).
    assert (k * Z.to_nat (max_tokens - overlap)
            <= (c - 1) * Z.to_nat (max_tokens - overlap))%nat by nia.
    lia.
  - intros w H0.
    assert (0 < c)%nat as Hlt.
    { apply lookup_lt_Some in H0. now rewrite windows_upto_length in H0. }
    rewrite windows_upto_lookup in H0 by exact Hlt.
    injection H0 as <-. reflexivity.
Qed.

Lemma chunk_windows_nonempty_run :
  0 <= 2 < 4
  /\ (length (char_encode "abcdefg") < 8)%nat
  /\ exists ws,
    chunk_windows char_encode 8 "abcdefg" 4 2 = Some ws
    /\ chunk_text_tokenwise char_encode char_decode 8 "abcdefg" 4 2
       = Some (Return (char_decode <$> ws))
    /\ Forall (fun w => (1 <= length w)%nat) ws
    /\ (forall w, ws !! 0%nat = Some w ->
                  w = take (Z.to_nat 4) (char_encode "abcdefg")).
Proof.
  split; [lia|]. split; [simpl; lia|].
  apply (chunk_windows_nonempty char_encode char_decode "abcdefg" 4 2 8);
    [lia | simpl; lia].
Defined.

(** X3. With [0 <= overlap < max_tokens] no token is lost: the first
    [max_tokens - overlap] tokens of every window, put end to end, are the
    token sequence of the text; without overlap the windows themselves
    are. *)
Theorem chunk_windows_cover encode text (max_tokens overlap : Z) fuel :
  0 <= overlap < max_tokens ->
  (length (encode text) < fuel)%nat ->
  exists ws,
    chunk_windows encode fuel text max_tokens overlap = Some ws
    /\ concat (take (Z.to_nat (max_tokens - overlap)) <$> ws) = encode text
    /\ (overlap = 0 -> concat ws = encode text).
Proof.
  intros Hcfg Hfuel.
  destruct (chunk_windows_run_step encode text max_tokens overlap fuel)
    as (c & Hrun & Hend & _); [lia | lia | exact Hfuel |].
  eexists. split; [exact Hrun|].
  assert (Hcover :
            concat (take (Z.to_nat (max_tokens - overlap))
                      <$> windows_upto (encode text) (Z.to_nat max_tokens)
                            (Z.to_nat (max_tokens - overlap)) c)
            = encode text).
  { unfold windows_upto, window_at. rewrite <- list_fmap_compose.
    rewrite (list_fmap_ext _ (fun k => take (Z.to_nat (max_tokens - overlap))
                (drop (k * Z.to_nat (max_tokens - overlap)) (encode text)))).
    - rewrite concat_strides. now apply take_ge.
    - intros i k _. simpl. rewrite take_take. f_equal. lia. }
  split; [exact Hcover|].
  intros ->. rewrite <- Hcover at 2. f_equal.
  rewrite <- (list_fmap_id (windows_upto _ _ _ _)) at 1.
  apply list_fmap_ext. intros i w Hw. simpl.
  symmetry. apply take_ge.
  assert (i < c)%nat as Hlt.
  { apply lookup_lt_Some in Hw. now rewrite windows_upto_length in Hw. }
  rewrite windows_upto_lookup in Hw by exact Hlt.
  injection Hw as <-. rewrite window_at_length. lia.
Qed.

Lemma chunk_windows_cover_run :
  0 <= 2 < 4
  /\ (length (char_encode "abcdefg") < 8)%nat
  /\ exists ws,
    chunk_windows char_encode 8 "abcdefg" 4 2 = Some ws
    /\ concat (take (Z.to_nat (4 - 2)) <$> ws) = char_encode "abcdefg"
    /\ (2 = 0 -> concat ws = char_encode "abcdefg").
Proof.
  split; [lia|]. split; [simpl; lia|].
  apply (chunk_windows_cover char_encode "abcdefg" 4 2 8); [lia | simpl; lia].
Defined.

(** The windows of a run hold at most [max_tokens] tokens each, and the
    later ones at most what the steps before them left. *)
Lemma windows_upto_total tokens (m s c : nat) :
  (m < s)%nat -> (c * s < length tokens)%nat ->
  (length (concat (windows_upto tokens m s (S c))) <= S c * m)%nat
  /\ (length (concat (windows_upto tokens m s (S c))) + c * (s - m)
      <= length tokens)%nat.
Proof.
  intros Hms. induction c as [|c IH]; intros Hlast.
  - unfold windows_upto. simpl. rewrite app_nil_r, window_at_length. lia.
  - destruct IH as [IH1 IH2]; [nia|].
    rewrite (windows_upto_S tokens m s (S c)), concat_app, length_app.
    remember (length (concat (windows_upto tokens m s (S c)))) as L.
    remember (length tokens) as n.
    simpl concat. rewrite app_nil_r, window_at_length. subst n.
    remember (length tokens) as n.
    assert (Hk : (S c * (s - m) = S c * s - S c * m)%nat) by nia.
    assert (Hle : (S c * m <= S c * s)%nat) by nia.
    split; [nia | lia].
Qed.

(** X4. A negative overlap is accepted, and then tokens are dropped: with
    [overlap < 0 < max_tokens] and a text of more than [max_tokens] tokens
    the windows together hold fewer tokens than the text. *)
Theorem negative_overlap_drops_tokens encode decode text (max_tokens overlap : Z) fuel :
  overlap < 0 < max_tokens ->
  (Z.to_nat max_tokens < length (encode text) < fuel)%nat ->
  exists ws,
    chunk_windows encode fuel text max_tokens overlap = Some ws
    /\ chunk_text_tokenwise encode decode fuel text max_tokens overlap
       = Some (Return (decode <$> ws))
    /\ (length (concat ws) < length (encode text))%nat.
Proof.
  intros Hcfg Hlen.
  destruct (chunk_windows_run_step encode text max_tokens overlap fuel)
    as (c & Hrun & Hend & Hlast); [lia | lia | lia |].
  eexists. split; [exact Hrun|].
  split; [now rewrite chunk_text_tokenwise_windows, Hrun|].
  assert (0 < c)%nat as Hc by (destruct c; [simpl in Hend; lia | lia]).
  specialize (Hlast Hc).
  destruct c as [|c]; [lia|].
  simpl in Hlast. rewrite Nat.sub_0_r in Hlast.
  destruct (windows_upto_total (encode text) (Z.to_nat max_tokens)
              (Z.to_nat (max_tokens - overlap)) c) as [H1 H2]; [lia | lia |].
  destruct c as [|c]; [lia|].
  assert (1 <= S c * (Z.to_nat (max_tokens - overlap) - Z.to_nat max_tokens))%nat
    by nia.
  lia.
Qed.

Lemma negative_overlap_drops_tokens_run :
  -1 < 0 < 2
  /\ chunk_text_tokenwise char_encode char_decode 6 "abcde" 2 (-1)
     = Some (Return ["ab"; "de"])
  /\ exists ws,
    chunk_windows char_encode 6 "abcde" 2 (-1) = Some ws
    /\ chunk_text_tokenwise char_encode char_decode 6 "abcde" 2 (-1)
       = Some (Return (char_decode <$> ws))
    /\ (length (concat ws) < length (char_encode "abcde"))%nat.
Proof.
  split; [lia|]. split; [reflexivity|].
  apply (negative_overlap_drops_tokens char_encode char_decode "abcde" 2 (-1) 6);
    [lia | simpl; lia].
Defined.

(** ** The ingestion of one file *)

Section GatheringFacts.

Variable encode : string -> list token.
Variable decode : list token -> string.
Variable vector : Type.
Variable uuid4 : nat -> string.

(** Enough fuel always gives the same chunks. *)
Lemma chunk_text_tokenwise_chunks_of text (max_tokens overlap : Z) fuel :
  0 <= overlap < max_tokens ->
  (length (encode text) < fuel)%nat ->
  chunk_text_tokenwise encode decode fuel text max_tokens overlap
  = Some (Return (chunks_of encode decode max_tokens overlap text)).
Proof.
  intros Hcfg Hfuel. unfold chunks_of.
  destruct (chunk_windows_run_step encode text max_tokens overlap fuel)
    as (c1 & Hrun1 & Hend1 & Hlast1); [lia | lia | exact Hfuel |].
  destruct (chunk_windows_run_step encode text max_tokens overlap
              (S (length (encode text))))
    as (c2 & Hrun2 & Hend2 & Hlast2); [lia | lia | lia |].
  rewrite !chunk_text_tokenwise_windows, Hrun1, Hrun2. simpl.
  assert (Hs : (0 < Z.to_nat (max_tokens - overlap))%nat) by lia.
  pose proof (window_count_ceil _ _ c1 Hs Hend1 Hlast1) as H1.
  pose proof (window_count_ceil _ _ c2 Hs Hend2 Hlast2) as H2.
  assert (c1 = c2) as -> by lia. reflexivity.
Qed.

(** The inner loop adds the chunks as they are, numbers them from [i], and
    draws one identifier for each. *)
Lemma chunks_loop_run course name lecture page_idx chunks :
  forall i g,
    chunks_loop uuid4 course name lecture page_idx i chunks g
    = {| all_chunks := all_chunks g ++ chunks;
         all_metadatas :=
           all_metadatas g
           ++ imap (fun j _ => {| course_id := course; lecture_id := lecture;
                                  source := name; page_or_slide := page_idx;
                                  chunk_index := i + Z.of_nat j |}) chunks;
         all_ids := all_ids g ++ (uuid4 <$> seq (drawn g) (length chunks));
         drawn := drawn g + length chunks |}.
Proof.
  induction chunks as [|chunk rest IH]; intros i g.
  - simpl. rewrite !app_nil_r, Nat.add_0_r. now destruct g.
  - simpl. rewrite IH. simpl. f_equal.
    + now rewrite <- app_assoc.
    + rewrite <- app_assoc. simpl. f_equal. f_equal.
      * f_equal. lia.
      * apply imap_ext. intros j x _. simpl. f_equal. lia.
    + now rewrite <- app_assoc.
    + lia.
Qed.

Lemma part_metadatas_length course name lecture max_tokens overlap p :
  length (part_metadatas encode decode course name lecture max_tokens overlap p)
  = length (chunks_of encode decode max_tokens overlap p.1).
Proof. unfold part_metadatas. apply length_imap. Qed.

Lemma file_metadatas_length course name lecture max_tokens overlap parts :
  length (file_metadatas encode decode course name lecture max_tokens overlap parts)
  = length (file_chunks encode decode max_tokens overlap parts).
Proof.
  unfold file_metadatas, file_chunks.
  induction (kept parts) as [|p ps IH]; [reflexivity|].
  rewrite !fmap_cons. cbn [concat].
  rewrite !length_app, part_metadatas_length. now rewrite IH.
Qed.

(** The outer loop: the chunks and the metadata of the parts that are not
    skipped, in order, and one identifier drawn for each chunk. *)
Lemma parts_loop_run course name lecture (max_tokens overlap : Z) fuel parts :
  0 <= overlap < max_tokens ->
  Forall (fun p => (length (encode p.1) < fuel)%nat) parts ->
  forall g,
    parts_loop encode decode uuid4 fuel course name lecture max_tokens overlap
      parts g
    = Some (Return
        {| all_chunks :=
             all_chunks g ++ file_chunks encode decode max_tokens overlap parts;
           all_metadatas :=
             all_metadatas g
             ++ file_metadatas encode decode course name lecture max_tokens
                  overlap parts;
           all_ids :=
             all_ids g
             ++ (uuid4 <$> seq (drawn g)
                   (length (file_chunks encode decode max_tokens overlap parts)));
           drawn :=
             drawn g
             + length (file_chunks encode decode max_tokens overlap parts) |}).
Proof.
  intros Hcfg Hfuel. induction Hfuel as [|[text page_idx] parts Hp _ IH]; intros g.
  - simpl. unfold file_chunks, file_metadatas. simpl.
    rewrite !app_nil_r, Nat.add_0_r. now destruct g.
  - simpl. unfold file_chunks, file_metadatas, kept in *. simpl.
    destruct (skipped text) eqn:Hskip; simpl.
    + apply IH.
    + rewrite (chunk_text_tokenwise_chunks_of text max_tokens overlap fuel Hcfg Hp).
      rewrite IH, chunks_loop_run. simpl.
      do 2 f_equal.
      f_equal; rewrite ?length_app, ?seq_app, ?fmap_app, <- ?app_assoc;
        try reflexivity; try lia.
      symmetry. apply Nat.add_assoc.
Qed.

(** What [process_single_file] does with a file whose parts were read, in a
    valid configuration. *)
Lemma process_single_file_run file course lecture embed_many
    (max_tokens overlap : Z) fuel parts (st : ingest_state vector) :
  0 <= overlap < max_tokens ->
  extract_parts file = Some (Return parts) ->
  Forall (fun p => (length (encode p.1) < fuel)%nat) parts ->
  let chunks := file_chunks encode decode max_tokens overlap parts in
  let metas := file_metadatas encode decode course (file_name file) lecture
                 max_tokens overlap parts in
  let ids := uuid4 <$> seq (uuids_drawn vector st) (length chunks) in
  process_single_file encode decode vector uuid4 fuel file course lecture
    embed_many max_tokens overlap st
  = Some
      match chunks with
      | [] => (Return 0, {| coll := coll vector st;
                            uuids_drawn := uuids_drawn vector st |})
      | _ =>
          match embed_many chunks with
          | Raise e =>
              (Raise e, {| coll := coll vector st;
                           uuids_drawn := uuids_drawn vector st + length chunks |})
          | Return vs =>
              (Return (Z.of_nat (length chunks)),
               {| coll := insert_chunks_to_collection vector (coll vector st)
                            ids chunks metas (Some vs);
                  uuids_drawn := uuids_drawn vector st + length chunks |})
          end
      end.
Proof.
  intros Hcfg Hparts Hfuel. cbv zeta.
  unfold process_single_file. rewrite Hparts.
  rewrite (parts_loop_run course (file_name file) lecture max_tokens overlap
             fuel parts Hcfg Hfuel).
  simpl.
  destruct (file_chunks encode decode max_tokens overlap parts) as [|c cs] eqn:Hc.
  - simpl. now rewrite Nat.add_0_r.
  - destruct (embed_many (c :: cs)); reflexivity.
Qed.

(** X5. In a valid configuration, for a file that was read and has a chunk,
    and an embedder that returns: the number returned is the number of
    chunks; that many identifiers are drawn, one after the other; and the
    identifiers, chunks and metadata passed to the collection are lists of
    that same length, the chunks being those of the parts that are not
    skipped, in order. *)
Theorem process_single_file_indexes file course lecture embed_many
    (max_tokens overlap : Z) fuel parts (st : ingest_state vector) vs :
  0 <= overlap < max_tokens ->
  extract_parts file = Some (Return parts) ->
  Forall (fun p => (length (encode p.1) < fuel)%nat) parts ->
  file_chunks encode decode max_tokens overlap parts <> [] ->
  embed_many (file_chunks encode decode max_tokens overlap parts) = Return vs ->
  let chunks := file_chunks encode decode max_tokens overlap parts in
  let metas := file_metadatas encode decode course (file_name file) lecture
                 max_tokens overlap parts in
  let ids := uuid4 <$> seq (uuids_drawn vector st) (length chunks) in
  process_single_file encode decode vector uuid4 fuel file course lecture
    embed_many max_tokens overlap st
  = Some (Return (Z.of_nat (length chunks)),
          {| coll := insert_chunks_to_collection vector (coll vector st)
                       ids chunks metas (Some vs);
             uuids_drawn := uuids_drawn vector st + length chunks |})
  /\ length ids = length chunks
  /\ length metas = length chunks.
Proof.
  intros Hcfg Hparts Hfuel Hsome Hembed. cbv zeta.
  rewrite (process_single_file_run file course lecture embed_many max_tokens
             overlap fuel parts st Hcfg Hparts Hfuel). cbv zeta.
  destruct (file_chunks encode decode max_tokens overlap parts) as [|c cs] eqn:Hc;
    [congruence|].
  rewrite Hembed. split; [reflexivity|].
  split; [now rewrite length_fmap, length_seq|].
  rewrite file_metadatas_length. now rewrite Hc.
Qed.

(** X6. When the embedder raises, the exception is that of
    [process_single_file] and the collection is as it was: nothing of the
    file is inserted. *)
Theorem process_single_file_embedder_fails file course lecture embed_many
    (max_tokens overlap : Z) fuel parts (st : ingest_state vector) e :
  0 <= overlap < max_tokens ->
  extract_parts file = Some (Return parts) ->
  Forall (fun p => (length (encode p.1) < fuel)%nat) parts ->
  file_chunks encode decode max_tokens overlap parts <> [] ->
  embed_many (file_chunks encode decode max_tokens overlap parts) = Raise e ->
  exists st',
    process_single_file encode decode vector uuid4 fuel file course lecture
      embed_many max_tokens overlap st = Some (Raise e, st')
    /\ coll vector st' = coll vector st.
Proof.
  intros Hcfg Hparts Hfuel Hsome Hembed.
  rewrite (process_single_file_run file course lecture embed_many max_tokens
             overlap fuel parts st Hcfg Hparts Hfuel). cbv zeta.
  destruct (file_chunks encode decode max_tokens overlap parts) as [|c cs] eqn:Hc;
    [congruence|].
  rewrite Hembed. eexists. split; reflexivity.
Qed.

(** Skipped parts never reach the chunker. *)
Lemma parts_loop_all_skipped course name lecture max_tokens overlap fuel parts :
  Forall (fun p => skipped p.1 = true) parts ->
  forall g,
    parts_loop encode decode uuid4 fuel course name lecture max_tokens overlap
      parts g = Some (Return g).
Proof.
  induction 1 as [|[text page_idx] parts Hp _ IH]; intros g; [reflexivity|].
  simpl in *. rewrite Hp. apply IH.
Qed.

(** X7. A file of an unsupported type, and a file all of whose parts are
    empty or blank, give 0 whatever the parameters and the fuel: the text is
    never encoded, the embedder is not called and the collection and the
    identifiers drawn are as they were. *)
Theorem process_single_file_nothing_to_index file course lecture embed_many
    (max_tokens overlap : Z) fuel (st : ingest_state vector) :
  extract_parts file = None
  \/ (exists parts, extract_parts file = Some (Return parts)
                    /\ Forall (fun p => skipped p.1 = true) parts) ->
  process_single_file encode decode vector uuid4 fuel file course lecture
    embed_many max_tokens overlap st
  = Some (Return 0, st).
Proof.
  intros [Hnone | (parts & Hparts & Hskip)]; unfold process_single_file.
  - now rewrite Hnone.
  - rewrite Hparts.
    rewrite (parts_loop_all_skipped course (file_name file) lecture max_tokens
               overlap fuel parts Hskip).
    simpl. now destruct st.
Qed.

End GatheringFacts.

(** The theorem at a text file of seven one-character tokens, cut with
    [max_tokens = 4] and [overlap = 2] into four chunks. *)
Lemma process_single_file_indexes_run :
  extract_parts (text_file "notes.txt" "abcdefg")
  = Some (Return [("abcdefg", None)])
  /\ file_chunks char_encode char_decode 4 2 [("abcdefg", None)]
     = ["abcd"; "cdef"; "efg"; "g"]
  /\ process_single_file char_encode char_decode Z numbered_uuid 8
       (text_file "notes.txt" "abcdefg") "calculus101" None length_embedder
       4 2 empty_store
     = Some (Return 4,
             {| coll :=
                  insert_chunks_to_collection Z ∅
                    (numbered_uuid <$> seq 0 4)
                    (file_chunks char_encode char_decode 4 2 [("abcdefg", None)])
                    (file_metadatas char_encode char_decode "calculus101"
                       "notes.txt" None 4 2 [("abcdefg", None)])
                    (Some [4; 4; 3; 1]);
                uuids_drawn := 4 |}).
Proof.
  split; [reflexivity|]. split; [reflexivity|].
  refine (proj1 (process_single_file_indexes char_encode char_decode Z
                   numbered_uuid (text_file "notes.txt" "abcdefg") "calculus101"
                   None length_embedder 4 2 8 [("abcdefg", None)] empty_store
                   [4; 4; 3; 1] _ _ _ _ _)).
  - lia.
  - reflexivity.
  - constructor; [simpl; lia | constructor].
  - discriminate.
  - reflexivity.
Defined.

(** The theorem for an embedder whose service is down. *)
Lemma process_single_file_embedder_fails_run :
  exists st',
    process_single_file char_encode char_decode Z numbered_uuid 8
      (text_file "notes.txt" "abcdefg") "calculus101" None
      (fun _ => Raise (Exn "APIConnectionError" "Connection error."))
      4 2 empty_store
    = Some (Raise (Exn "APIConnectionError" "Connection error."), st')
    /\ coll Z st' = coll Z empty_store.
Proof.
  apply (process_single_file_embedder_fails char_encode char_decode Z
           numbered_uuid (text_file "notes.txt" "abcdefg") "calculus101" None
           (fun _ => Raise (Exn "APIConnectionError" "Connection error."))
           4 2 8 [("abcdefg", None)] empty_store).
  - lia.
  - reflexivity.
  - constructor; [simpl; lia | constructor].
  - discriminate.
  - reflexivity.
Defined.

(** The theorem at a PDF whose two pages fail to extract, with parameters
    under which a text would never be chunked to the end, and no fuel. *)
Lemma process_single_file_nothing_to_index_run :
  process_single_file char_encode char_decode Z numbered_uuid 0
    {| file_name := "scan.pdf"; file_suffix := ".pdf";
       file_pdf := Return [PageFails (Exn "PdfReadError" "bad page");
                           PageText None];
       file_pptx := Return []; file_text := Return "" |}
    "calculus101" None (fun _ => Raise (Exn "APIConnectionError" "down"))
    100 100 empty_store
  = Some (Return 0, empty_store).
Proof.
  apply (process_single_file_nothing_to_index char_encode char_decode Z
           numbered_uuid).
  right. eexists. split; [reflexivity|].
  repeat constructor.
Defined.

Section AlignmentFacts.

Variable encode : string -> list token.
Variable decode : list token -> string.
Variable vector : Type.
Variable uuid4 : nat -> string.

(** The chunk and the metadata at one position of the lists belong
    together. *)
Lemma file_lists_aligned course name lecture (max_tokens overlap : Z) ps :
  forall pos chunk,
    concat ((fun p : string * option Z =>
               chunks_of encode decode max_tokens overlap p.1) <$> ps) !! pos
    = Some chunk ->
    exists p j,
      p ∈ ps
      /\ chunks_of encode decode max_tokens overlap p.1 !! j = Some chunk
      /\ concat (part_metadatas encode decode course name lecture max_tokens
                   overlap <$> ps) !! pos
         = Some {| course_id := course; lecture_id := lecture; source := name;
                   page_or_slide := p.2; chunk_index := Z.of_nat j |}.
Proof.
  induction ps as [|p ps IH]; intros pos chunk Hpos; [discriminate|].
  rewrite !fmap_cons in *. cbn [concat] in *.
  destruct (decide (pos < length (chunks_of encode decode max_tokens overlap p.1))%nat)
    as [Hlt|Hge].
  - rewrite lookup_app_l in Hpos by exact Hlt.
    exists p, pos. split; [left|]. split; [exact Hpos|].
    rewrite lookup_app_l by (rewrite part_metadatas_length; exact Hlt).
    unfold part_metadatas. rewrite list_lookup_imap, Hpos. reflexivity.
  - rewrite lookup_app_r in Hpos by lia.
    destruct (IH _ _ Hpos) as (q & j & Hq & Hj & Hm).
    exists q, j. split; [now right|]. split; [exact Hj|].
    rewrite lookup_app_r by (rewrite part_metadatas_length; lia).
    rewrite part_metadatas_length. exact Hm.
Qed.

(** X8. In a valid configuration the three lists that the main loop of
    [process_single_file] fills stay aligned: the chunk at a position is
    the [j]-th chunk of a part that is not skipped, the metadata at that
    position carries the page of that part and the index [j], and the
    identifier at that position is the one drawn for it. *)
Theorem parts_loop_aligned course name lecture (max_tokens overlap : Z) fuel
    parts (drawn0 : nat) :
  0 <= overlap < max_tokens ->
  Forall (fun p => (length (encode p.1) < fuel)%nat) parts ->
  exists g,
    parts_loop encode decode uuid4 fuel course name lecture max_tokens overlap
      parts {| all_chunks := []; all_metadatas := []; all_ids := [];
               drawn := drawn0 |}
    = Some (Return g)
    /\ forall pos chunk,
         all_chunks g !! pos = Some chunk ->
         exists text page_idx chunks j,
           (text, page_idx) ∈ parts
           /\ skipped text = false
           /\ chunk_text_tokenwise encode decode fuel text max_tokens overlap
              = Some (Return chunks)
           /\ chunks !! j = Some chunk
           /\ all_metadatas g !! pos
              = Some {| course_id := course; lecture_id := lecture;
                        source := name; page_or_slide := page_idx;
                        chunk_index := Z.of_nat j |}
           /\ all_ids g !! pos = Some (uuid4 (drawn0 + pos)).
Proof.
  intros Hcfg Hfuel.
  rewrite (parts_loop_run encode decode uuid4 course name lecture max_tokens
             overlap fuel parts Hcfg Hfuel).
  eexists. split; [reflexivity|].
  simpl. intros pos chunk Hpos.
  destruct (file_lists_aligned course name lecture max_tokens overlap
              (kept parts) pos chunk Hpos) as ([text page_idx] & j & Hin & Hj & Hm).
  apply list_elem_of_In, filter_In in Hin as [Hin Hkeep].
  apply list_elem_of_In in Hin.
  exists text, page_idx, (chunks_of encode decode max_tokens overlap text), j.
  split; [exact Hin|].
  split; [simpl in Hkeep; now destruct (skipped text)|].
  split.
  { apply chunk_text_tokenwise_chunks_of; [exact Hcfg|].
    rewrite Forall_forall in Hfuel. exact (Hfuel _ Hin). }
  split; [exact Hj|]. split; [exact Hm|].
  rewrite list_lookup_fmap, lookup_seq_lt; [reflexivity|].
  apply lookup_lt_Some in Hpos. exact Hpos.
Qed.

(** X9. Ingesting the same file twice passes the same chunks and metadata
    to the collection twice, the second time under the identifiers drawn
    next, which are all different from the first ones when no two draws of
    [uuid4] agree. *)
Theorem process_single_file_twice file course lecture embed_many
    (max_tokens overlap : Z) fuel parts (st : ingest_state vector) vs :
  0 <= overlap < max_tokens ->
  extract_parts file = Some (Return parts) ->
  Forall (fun p => (length (encode p.1) < fuel)%nat) parts ->
  file_chunks encode decode max_tokens overlap parts <> [] ->
  embed_many (file_chunks encode decode max_tokens overlap parts) = Return vs ->
  (forall i j, uuid4 i = uuid4 j -> i = j) ->
  let chunks := file_chunks encode decode max_tokens overlap parts in
  let metas := file_metadatas encode decode course (file_name file) lecture
                 max_tokens overlap parts in
  let k := length chunks in
  let ids := uuid4 <$> seq (uuids_drawn vector st) k in
  let ids' := uuid4 <$> seq (uuids_drawn vector st + k) k in
  let st1 := {| coll := insert_chunks_to_collection vector (coll vector st)
                          ids chunks metas (Some vs);
                uuids_drawn := uuids_drawn vector st + k |} in
  let st2 := {| coll := insert_chunks_to_collection vector (coll vector st1)
                          ids' chunks metas (Some vs);
                uuids_drawn := uuids_drawn vector st + k + k |} in
  process_single_file encode decode vector uuid4 fuel file course lecture
    embed_many max_tokens overlap st = Some (Return (Z.of_nat k), st1)
  /\ process_single_file encode decode vector uuid4 fuel file course lecture
       embed_many max_tokens overlap st1 = Some (Return (Z.of_nat k), st2)
  /\ NoDup (ids ++ ids').
Proof.
  intros Hcfg Hparts Hfuel Hsome Hembed Hinj. cbv zeta.
  pose proof (process_single_file_run encode decode vector uuid4 file course
                lecture embed_many max_tokens overlap fuel parts) as Hrun.
  cbv zeta in Hrun.
  destruct (file_chunks encode decode max_tokens overlap parts) as [|c cs] eqn:Hc;
    [congruence|].
  split; [|split].
  - rewrite (Hrun st Hcfg Hparts Hfuel), Hembed. reflexivity.
  - rewrite (Hrun _ Hcfg Hparts Hfuel), Hembed. reflexivity.
  - rewrite <- fmap_app, <- seq_app.
    apply NoDup_fmap_2; [|apply NoDup_seq].
    intros i j. apply Hinj.
Qed.

(** The loop over the files, by parts. *)
Lemma files_loop_app fuel files1 files2 course lecture embed
    (max_tokens overlap : Z) total (st : ingest_state vector) :
  files_loop encode decode vector uuid4 fuel (files1 ++ files2) course lecture
    embed max_tokens overlap total st
  = match files_loop encode decode vector uuid4 fuel files1 course lecture
            embed max_tokens overlap total st with
    | Some (Return total1, st1) =>
        files_loop encode decode vector uuid4 fuel files2 course lecture embed
          max_tokens overlap total1 st1
    | Some (Raise e, st1) => Some (Raise e, st1)
    | None => None
    end.
Proof.
  revert total st. induction files1 as [|f files1 IH]; intros total st.
  - reflexivity.
  - simpl.
    destruct (process_single_file _ _ _ _ _ _ _ _ _ _ _ _) as [[[n|e] st1]|];
      [apply IH | reflexivity | reflexivity].
Qed.

(** The starting total is only added to. *)
Lemma files_loop_total fuel files course lecture embed
    (max_tokens overlap : Z) :
  forall total (st : ingest_state vector),
    files_loop encode decode vector uuid4 fuel files course lecture embed
      max_tokens overlap total st
    = match files_loop encode decode vector uuid4 fuel files course lecture
              embed max_tokens overlap 0 st with
      | Some (Return n, st') => Some (Return (total + n), st')
      | Some (Raise e, st') => Some (Raise e, st')
      | None => None
      end.
Proof.
  induction files as [|f files IH]; intros total st.
  - simpl. do 3 f_equal. lia.
  - simpl.
    destruct (process_single_file _ _ _ _ _ _ _ _ _ _ _ _) as [[[n|e] st1]|];
      try reflexivity.
    rewrite (IH (total + n)), (IH (0 + n)).
    destruct (files_loop _ _ _ _ _ _ _ _ _ _ _ 0 st1) as [[[m|e] st2]|];
      try reflexivity.
    do 3 f_equal. lia.
Qed.

(** X10. Ingesting a list of files is ingesting a first part of it and then
    the rest from the state reached, and the two counts add up; a file that
    raises ends the run with its exception, whether it is in the first part
    (the rest is then left alone) or in the rest. *)
Theorem ingest_in_two_parts fuel files1 files2 course lecture embed
    (max_tokens overlap : Z) (st : ingest_state vector) :
  (forall n1 st1 n2 st2,
      files_loop encode decode vector uuid4 fuel files1 course lecture embed
        max_tokens overlap 0 st = Some (Return n1, st1) ->
      files_loop encode decode vector uuid4 fuel files2 course lecture embed
        max_tokens overlap 0 st1 = Some (Return n2, st2) ->
      files_loop encode decode vector uuid4 fuel (files1 ++ files2) course
        lecture embed max_tokens overlap 0 st = Some (Return (n1 + n2), st2))
  /\ (forall e st1,
        files_loop encode decode vector uuid4 fuel files1 course lecture embed
          max_tokens overlap 0 st = Some (Raise e, st1) ->
        files_loop encode decode vector uuid4 fuel (files1 ++ files2) course
          lecture embed max_tokens overlap 0 st = Some (Raise e, st1))
  /\ (forall n1 st1 e st2,
        files_loop encode decode vector uuid4 fuel files1 course lecture embed
          max_tokens overlap 0 st = Some (Return n1, st1) ->
        files_loop encode decode vector uuid4 fuel files2 course lecture embed
          max_tokens overlap 0 st1 = Some (Raise e, st2) ->
        files_loop encode decode vector uuid4 fuel (files1 ++ files2) course
          lecture embed max_tokens overlap 0 st = Some (Raise e, st2)).
Proof.
  split; [|split].
  - intros n1 st1 n2 st2 H1 H2.
    rewrite files_loop_app, H1, files_loop_total, H2. reflexivity.
  - intros e st1 H1. rewrite files_loop_app, H1. reflexivity.
  - intros n1 st1 e st2 H1 H2.
    rewrite files_loop_app, H1, files_loop_total, H2. reflexivity.
Qed.

End AlignmentFacts.

Lemma numbered_uuid_inj i j : numbered_uuid i = numbered_uuid j -> i = j.
Proof.
  unfold numbered_uuid. intros H.
  apply (inj pretty). apply (inj (String.app "uuid-")). exact H.
Qed.

(** The theorem at one part of seven one-character tokens. *)
Lemma parts_loop_aligned_run :
  exists g,
    parts_loop char_encode char_decode numbered_uuid 8 "calculus101"
      "notes.txt" None 4 2 [("abcdefg", Some 3)]
      {| all_chunks := []; all_metadatas := []; all_ids := []; drawn := 5 |}
    = Some (Return g)
    /\ forall pos chunk,
         all_chunks g !! pos = Some chunk ->
         exists text page_idx chunks j,
           (text, page_idx) ∈ [("abcdefg", Some 3)]
           /\ skipped text = false
           /\ chunk_text_tokenwise char_encode char_decode 8 text 4 2
              = Some (Return chunks)
           /\ chunks !! j = Some chunk
           /\ all_metadatas g !! pos
              = Some {| course_id := "calculus101"; lecture_id := None;
                        source := "notes.txt"; page_or_slide := page_idx;
                        chunk_index := Z.of_nat j |}
           /\ all_ids g !! pos = Some (numbered_uuid (5 + pos)).
Proof.
  apply (parts_loop_aligned char_encode char_decode numbered_uuid
           "calculus101" "notes.txt" None 4 2 8 [("abcdefg", Some 3)] 5).
  - lia.
  - constructor; [simpl; lia | constructor].
Defined.

(** The theorem at a text file of seven one-character tokens, ingested
    twice. *)
Lemma process_single_file_twice_run :
  NoDup ((numbered_uuid <$> seq 0 4) ++ (numbered_uuid <$> seq 4 4))
  /\ exists st1 st2,
       process_single_file char_encode char_decode Z numbered_uuid 8
         (text_file "notes.txt" "abcdefg") "calculus101" None length_embedder
         4 2 empty_store = Some (Return 4, st1)
       /\ process_single_file char_encode char_decode Z numbered_uuid 8
            (text_file "notes.txt" "abcdefg") "calculus101" None
            length_embedder 4 2 st1 = Some (Return 4, st2)
       /\ uuids_drawn Z st2 = 8%nat.
Proof.
  pose proof (process_single_file_twice char_encode char_decode Z
                numbered_uuid (text_file "notes.txt" "abcdefg") "calculus101"
                None length_embedder 4 2 8 [("abcdefg", None)] empty_store
                [4; 4; 3; 1]
                ltac:(lia) eq_refl
                ltac:(constructor; [simpl; lia | constructor])
                ltac:(discriminate) eq_refl numbered_uuid_inj)
    as (H1 & H2 & H3).
  split; [exact H3|].
  eexists _, _. split; [exact H1|]. split; [exact H2|]. reflexivity.
Defined.

(** The theorem at two text files and then a third. *)
Lemma ingest_in_two_parts_run :
  exists st2,
    files_loop char_encode char_decode Z numbered_uuid 8
      ([text_file "a.txt" "abcdefg"; text_file "b.txt" " "]
       ++ [text_file "c.txt" "xyz"])
      "calculus101" None length_embedder 4 2 0 empty_store
    = Some (Return (4 + 2), st2)
    /\ uuids_drawn Z st2 = 6%nat.
Proof.
  destruct (ingest_in_two_parts char_encode char_decode Z numbered_uuid 8
              [text_file "a.txt" "abcdefg"; text_file "b.txt" " "]
              [text_file "c.txt" "xyz"] "calculus101" None length_embedder
              4 2 empty_store) as (Hsum & _ & _).
  eexists. split.
  - eapply Hsum; reflexivity.
  - reflexivity.
Defined.

(** ** The embedder *)

Section EmbedderFacts.

Variable vector : Type.
Variable openai_create : list string -> outcome (list vector).
Variable model_encode : list string -> outcome (list vector).

(** The starts of the batches, and the batches as strides of 16. *)
Lemma py_range_batches (n : nat) :
  py_range 0 (Z.of_nat n) BATCH
  = (fun k => Z.of_nat (k * 16)) <$> seq 0 (Z.to_nat ((Z.of_nat n + 15) / 16)).
Proof.
  unfold py_range, BATCH.
  replace (Z.of_nat n - 0 + 16 - 1) with (Z.of_nat n + 15) by lia.
  apply list_fmap_ext. intros i k _. lia.
Qed.

Lemma batches_strides (texts : list string) :
  batches texts
  = (fun k => take 16 (drop (k * 16) texts))
      <$> seq 0 (Z.to_nat ((Z.of_nat (length texts) + 15) / 16)).
Proof.
  unfold batches. rewrite py_range_batches, <- list_fmap_compose.
  apply list_fmap_ext. intros i k _. simpl. unfold BATCH.
  rewrite py_slice_window by lia. now rewrite Nat2Z.id.
Qed.

Lemma batch_count_bounds (n : nat) :
  let c := Z.to_nat ((Z.of_nat n + 15) / 16) in
  (n <= c * 16)%nat /\ (forall k, (k < c)%nat -> (k * 16 < n)%nat).
Proof.
  cbv zeta.
  pose proof (Z.div_mod (Z.of_nat n + 15) 16 ltac:(lia)) as Hdm.
  pose proof (Z.mod_pos_bound (Z.of_nat n + 15) 16 ltac:(lia)) as Hmod.
  assert (0 <= (Z.of_nat n + 15) / 16) by (apply Z.div_pos; lia).
  split; [lia | intros k Hk; lia].
Qed.

(** The batches are the texts, in order, at most 16 at a time, none
    empty. *)
Lemma batches_cover (texts : list string) :
  concat (batches texts) = texts
  /\ Forall (fun b => (1 <= length b <= 16)%nat) (batches texts).
Proof.
  rewrite batches_strides.
  destruct (batch_count_bounds (length texts)) as [Hend Hin].
  split.
  - rewrite concat_strides. now apply take_ge.
  - apply Forall_fmap, Forall_forall. intros k Hk. simpl.
    apply list_elem_of_In, in_seq in Hk.
    rewrite length_take, length_drop.
    specialize (Hin k ltac:(lia)). lia.
Qed.

(** The loop returns what the service returned, batch after batch. *)
Lemma batches_loop_run (g : string -> vector) texts starts :
  Forall (fun i => openai_create (py_slice texts i (i + BATCH))
                   = Return (g <$> py_slice texts i (i + BATCH))) starts ->
  forall results,
    batches_loop vector openai_create starts texts results
    = Return (results
              ++ (g <$> concat ((fun i => py_slice texts i (i + BATCH))
                                  <$> starts))).
Proof.
  induction 1 as [|i starts Hi _ IH]; intros results.
  - simpl. now rewrite app_nil_r.
  - simpl. rewrite Hi, IH, fmap_app, app_assoc. reflexivity.
Qed.

(** X11. With the OpenAI strategy, when the service returns for every
    batch the embeddings of its texts in order, [embed_many] returns one
    embedding per text, in the order of the texts; the service is asked for
    at most 16 texts at a time, never for none, and the batches are the
    texts in order without a gap or a repeat. *)
Theorem embed_many_in_order (g : string -> vector) (texts : list string) :
  (forall b, b ∈ batches texts -> openai_create b = Return (g <$> b)) ->
  embed_many vector openai_create model_encode {| use_openai := true |} texts
  = Return (g <$> texts)
  /\ concat (batches texts) = texts
  /\ Forall (fun b => (1 <= length b <= 16)%nat) (batches texts).
Proof.
  intros Hservice.
  destruct (batches_cover texts) as [Hcat Hsize].
  split; [|split; [exact Hcat | exact Hsize]].
  unfold embed_many. simpl.
  rewrite (batches_loop_run g).
  - simpl. fold (batches texts). now rewrite Hcat.
  - apply Forall_forall. intros i Hi. apply Hservice.
    unfold batches. apply list_elem_of_fmap. eauto.
Qed.

(** X12. The first batch on which the service raises ends [embed_many]
    with that exception: the embeddings of the batches before it are not
    returned. *)
Theorem embed_many_service_fails (g : string -> vector) (texts : list string)
    before failing after e :
  batches texts = before ++ failing :: after ->
  (forall b, b ∈ before -> openai_create b = Return (g <$> b)) ->
  openai_create failing = Raise e ->
  embed_many vector openai_create model_encode {| use_openai := true |} texts
  = Raise e.
Proof.
  intros Hsplit Hbefore Hfail.
  unfold embed_many. simpl.
  unfold batches in Hsplit.
  remember (py_range 0 (Z.of_nat (length texts)) BATCH) as starts eqn:Hs.
  clear Hs. generalize (@nil vector) as results.
  revert starts Hsplit. induction before as [|b before IH];
    intros starts Hsplit results.
  - destruct starts as [|i starts]; [discriminate|].
    simpl in Hsplit. injection Hsplit as Hi _.
    simpl. now rewrite Hi, Hfail.
  - destruct starts as [|i starts]; [discriminate|].
    simpl in Hsplit. injection Hsplit as Hi Hrest.
    simpl. rewrite Hi, (Hbefore b) by left.
    apply IH; [|exact Hrest].
    intros b' Hb'. apply Hbefore. now right.
Qed.

End EmbedderFacts.

(** The theorem at 20 texts: a batch of 16 and a batch of 4. *)
Lemma embed_many_in_order_run :
  length (batches (replicate 20 "text")) = 2%nat
  /\ embed_many Z length_embedder length_embedder {| use_openai := true |}
       (replicate 20 "text")
     = Return ((fun t => Z.of_nat (String.length t)) <$> replicate 20 "text").
Proof.
  split; [reflexivity|].
  apply (embed_many_in_order Z length_embedder length_embedder
           (fun t => Z.of_nat (String.length t)) (replicate 20 "text")).
  intros b _. reflexivity.
Defined.

(** The theorem at 20 texts and a service that accepts a batch of 16 and
    refuses a batch of 4. *)
Lemma embed_many_service_fails_run :
  embed_many Z
    (fun b => if (length b =? 16)%nat then length_embedder b
              else Raise (Exn "RateLimitError" "Rate limit reached"))
    length_embedder {| use_openai := true |} (replicate 20 "text")
  = Raise (Exn "RateLimitError" "Rate limit reached").
Proof.
  apply (embed_many_service_fails Z _ length_embedder
           (fun t => Z.of_nat (String.length t)) (replicate 20 "text")
           [replicate 16 "text"] (replicate 4 "text") []).
  - reflexivity.
  - intros b Hb. apply list_elem_of_singleton in Hb. subst b. reflexivity.
  - reflexivity.
Defined.

(** X13. [ingest_files] asks for the OpenAI strategy. Once the collection
    is there, it raises a [RuntimeError] before any file is read when that
    strategy is not available (the module did not import, or the key is
    missing or empty) and sentence-transformers did not import either; with
    a usable key it ingests the files with the OpenAI embedder and never
    loads the local model. *)
Theorem ingest_files_strategy encode decode (vector : Type) uuid4
    (get_or_create_collection create_collection : outcome unit)
    mods load_model openai_create model_encode fuel files course lecture
    openai_api_key (max_tokens overlap : Z) (st : ingest_state vector) :
  get_or_create_collection = Return tt \/ create_collection = Return tt ->
  (openai_imported mods && key_truthy openai_api_key = false ->
   sentence_transformers_imported mods = false ->
   exists msg,
     ingest_files encode decode vector uuid4 get_or_create_collection
       create_collection mods load_model openai_create model_encode fuel files
       course lecture openai_api_key max_tokens overlap st
     = Some (Raise (Exn "RuntimeError" msg), st))
  /\ (openai_imported mods && key_truthy openai_api_key = true ->
      ingest_files encode decode vector uuid4 get_or_create_collection
        create_collection mods load_model openai_create model_encode fuel files
        course lecture openai_api_key max_tokens overlap st
      = files_loop encode decode vector uuid4 fuel files course lecture
          (embed_many vector openai_create model_encode {| use_openai := true |})
          max_tokens overlap 0 st).
Proof.
  intros Hcoll.
  assert (Hc : (match get_or_create_collection with
                | Return c => Return c
                | Raise _ => ensure_collection create_collection
                end) = Return tt).
  { unfold ensure_collection.
    destruct Hcoll as [-> | ->]; [reflexivity|].
    destruct get_or_create_collection as [[]|]; reflexivity. }
  unfold ingest_files. rewrite Hc. unfold Embedder_init. simpl.
  split.
  - intros -> ->. simpl. eexists. reflexivity.
  - intros ->. reflexivity.
Qed.

(** The theorem without a key and without sentence-transformers, on a file
    and with parameters under which chunking would not end. *)
Lemma ingest_files_strategy_run :
  exists msg,
    ingest_files char_encode char_decode Z numbered_uuid (Return tt)
      (Return tt)
      {| openai_imported := true; sentence_transformers_imported := false |}
      (Return tt) length_embedder length_embedder 0
      [text_file "a.txt" "abcdefg"] "calculus101" None (Some "") 100 100
      empty_store
    = Some (Raise (Exn "RuntimeError" msg), empty_store).
Proof.
  refine (proj1 (ingest_files_strategy char_encode char_decode Z numbered_uuid
                   (Return tt) (Return tt)
                   {| openai_imported := true;
                      sentence_transformers_imported := false |}
                   (Return tt) length_embedder length_embedder 0
                   [text_file "a.txt" "abcdefg"] "calculus101" None (Some "")
                   100 100 empty_store _) _ _).
  - now left.
  - reflexivity.
  - reflexivity.
Defined.

(** ** The video search, the engine and the quiz store *)

Section EnrichmentFacts.

Variable llm_complete : string -> outcome completion.
Variable query_engine_query : string -> outcome response.
Variable youtube_search : string -> Z -> outcome (list search_item).
Variable json_loads : string -> outcome json.

(** One turn of the loop over the items. *)
Lemma items_loop_cons item rest acc w :
  (items_loop (item :: rest) acc w).1
  = match video_of item with
    | Some v => (items_loop rest (acc ++ [v]) w).1
    | None => Raise (Exn "KeyError" "missing key")
    end.
Proof.
  unfold video_of. cbn [items_loop]. unfold_statements.
  destruct (item_video_id item); [|reflexivity].
  destruct (item_title item); [|reflexivity].
  destruct (item_channel_title item); [|reflexivity].
  destruct (item_description item); [|reflexivity].
  destruct (item_thumbnail_url item); reflexivity.
Qed.

(** The loop over the items builds the videos of the items, or raises at
    the first item that misses a key. *)
Lemma items_loop_run items :
  forall acc w,
    (items_loop items acc w).1
    = match mapM video_of items with
      | Some found => Return (acc ++ found)
      | None => Raise (Exn "KeyError" "missing key")
      end.
Proof.
  induction items as [|item rest IH]; intros acc w.
  - simpl. now rewrite app_nil_r.
  - rewrite items_loop_cons.
    change (mapM video_of (item :: rest))
      with (y ← video_of item; k ← mapM video_of rest; mret (y :: k)).
    destruct (video_of item) as [v|]; [|reflexivity].
    rewrite IH. simpl.
    destruct (mapM video_of rest); simpl; [|reflexivity].
    now rewrite <- app_assoc.
Qed.

(** X14. [search_educational_videos] never raises. When the API returns
    items that all have the five keys read, it returns one video per item,
    in order, with the URL made from the video id; when one item misses a
    key, or the API raises, it returns the empty list. *)
Theorem search_educational_videos_result query_str max_results w :
  let run := search_educational_videos youtube_search query_str max_results w in
  let answer := youtube_search (query_str +:+ " tutorial education") max_results in
  (forall items found,
      answer = Return items -> mapM video_of items = Some found ->
      run.1 = Return found /\ length found = length items)
  /\ (forall items,
        answer = Return items -> Exists (fun item => video_of item = None) items ->
        run.1 = Return [])
  /\ (forall e, answer = Raise e -> run.1 = Return [])
  /\ (forall e, run.1 <> Raise e).
Proof.
  cbv zeta. unfold search_educational_videos. unfold_statements. simpl.
  destruct (youtube_search _ _) as [items|e] eqn:Hanswer.
  - match goal with
    | |- context [items_loop items [] ?w0] =>
        pose proof (items_loop_run items [] w0) as Hloop;
        destruct (items_loop items [] w0) as [[found|e] w1]
    end; simpl in Hloop.
    + destruct (mapM video_of items) as [found'|] eqn:Hmap; [|discriminate].
      injection Hloop as ->. simpl.
      split; [|split; [|split]]; try discriminate.
      * intros items' found'' [= <-] Hm. rewrite Hmap in Hm.
        injection Hm as <-. split; [reflexivity|].
        apply mapM_Some_1, Forall2_length in Hmap. now symmetry.
      * intros items' [= <-] Hex. apply mapM_None_2 in Hex. congruence.
    + simpl. split; [|split; [|split]]; try discriminate; try reflexivity.
      intros items' found'' [= <-] Hmap.
      rewrite Hmap in Hloop. discriminate.
  - simpl. split; [|split; [|split]]; try discriminate; reflexivity.
Qed.

(** X15. [query] raises exactly when the retrieval raises, and then with
    the exception of the retrieval. A model that fails in the rewriting
    leaves the question as the retrieval query, and a video API that raises
    leaves the answer with an empty list of videos. *)
Theorem query_fails_only_with_retrieval question (get_videos : bool) w :
  let run := query llm_complete query_engine_query youtube_search question
               get_videos w in
  exists rewritten,
    (rewrite_query llm_complete question w).1 = Return rewritten
    /\ (forall e, llm_complete (rewrite_prompt question) = Raise e ->
                  rewritten = question)
    /\ (forall e, run.1 = Raise e <-> query_engine_query rewritten = Raise e)
    /\ (forall r e,
          query_engine_query rewritten = Return r ->
          youtube_search (question +:+ " tutorial education") 5 = Raise e ->
          run.1 = Return {| answer := response_str r;
                            result_source_nodes := source_nodes r;
                            videos := [] |}).
Proof.
  cbv zeta.
  destruct (rewrite_query llm_complete question w) as [rw w1] eqn:Hrw.
  assert (Hrewritten : exists rewritten, rw = Return rewritten
            /\ (forall e, llm_complete (rewrite_prompt question) = Raise e ->
                          rewritten = question)).
  { rewrite rewrite_query_run in Hrw. cbv zeta in Hrw.
    destruct (llm_complete _) as [[[t|]]|e]; inversion Hrw; subst;
      eexists; (split; [reflexivity|]); intros e' He'; try discriminate;
      reflexivity. }
  destruct Hrewritten as (rewritten & -> & Hfallback).
  exists rewritten. split; [reflexivity|]. split; [exact Hfallback|].
  unfold query. unfold_statements. rewrite Hrw. simpl.
  destruct (query_engine_query rewritten) as [r|e0] eqn:Hretrieve.
  - assert (Hreturns : forall w0, exists found w2,
              search_educational_videos youtube_search question 5 w0
              = (Return found, w2)
              /\ (forall e, youtube_search (question +:+ " tutorial education") 5
                            = Raise e -> found = [])).
    { intros w0.
      destruct (search_educational_videos_run youtube_search question 5 w0)
        as (found & w2 & Hs & _).
      exists found, w2. split; [exact Hs|].
      intros e He.
      unfold search_educational_videos in Hs. unfold_statements.
      simpl in Hs. rewrite He in Hs. simpl in Hs. now injection Hs as <- _. }
    destruct (get_videos || _is_low_confidence r).
    + match goal with
      | |- context [search_educational_videos _ ?q ?n ?w0] =>
          destruct (Hreturns w0) as (found & w2 & Hs & Hempty)
      end.
      rewrite Hs. simpl. split.
      * intros e. split; discriminate.
      * intros r' e [= <-] He. now rewrite (Hempty e He).
    + simpl. split.
      * intros e. split; discriminate.
      * intros r' e [= <-] _. reflexivity.
  - simpl. split.
    + intros e. split; congruence.
    + intros r e. discriminate.
Qed.

(** X16. [EnhancedQueryEngine.generate_quiz] without a context retrieves
    with the topic as it is and gives the texts of the retrieved nodes,
    joined by newlines, to the quiz generator; when that retrieval raises,
    the call raises too, before the model is called and without a row
    saved, although the quiz generator itself never raises. *)
Theorem engine_generate_quiz_retrieves topic num_questions w :
  let run := engine_generate_quiz llm_complete query_engine_query json_loads
               topic None num_questions w in
  (forall r,
      query_engine_query topic = Return r ->
      run = generate_quiz llm_complete json_loads BackendCopy topic
              (String.concat newline (node_text <$> source_nodes r))
              num_questions (with_calls (calls w ++ [CallQueryEngine topic]) w)
      /\ (forall e, run.1 <> Raise e))
  /\ (forall e,
        query_engine_query topic = Raise e ->
        run.1 = Raise e
        /\ calls run.2 = calls w ++ [CallQueryEngine topic]
        /\ quiz_rows run.2 = quiz_rows w).
Proof.
  cbv zeta. unfold engine_generate_quiz. unfold_statements. simpl.
  split.
  - intros r ->. simpl. split; [reflexivity|].
    intros e. rewrite generate_quiz_run. cbv zeta.
    destruct (llm_complete _) as [[[t|]]|e']; simpl; try discriminate.
    destruct (json_loads t) as [q|e']; try discriminate.
    simpl. destruct (db_fault w); discriminate.
  - intros e ->. simpl. repeat split.
Qed.

End EnrichmentFacts.

(** One complete item gives one video; an item without a title next to it
    discards both. *)
Example search_complete_item :
  (search_educational_videos (fun _ _ => Return [complete_item]) "sets" 5
     quiet_world).1
  = Return [ {| video_id := "abc"; video_title := "Sets";
                video_channel := "Maths"; video_description := "About sets";
                video_thumbnail := "https://img/abc.jpg";
                video_url := "https://www.youtube.com/watch?v=abc" |} ].
Proof. reflexivity. Qed.

Example search_incomplete_item :
  (search_educational_videos
     (fun _ _ => Return [ complete_item;
                          {| item_video_id := Some "x"; item_title := None;
                             item_channel_title := Some "c";
                             item_description := Some "d";
                             item_thumbnail_url := Some "t" |} ])
     "sets" 5 quiet_world).1
  = Return [].
Proof. reflexivity. Qed.

(** ** The quiz store *)

Section StoreFacts.

Variable llm_complete : string -> outcome completion.
Variable json_loads : string -> outcome json.
Variable by_recency : list quiz_row -> list quiz_row.

(** What [ORDER BY created_at DESC] promises: the rows of the table, none
    before a more recent one. *)
Hypothesis by_recency_rows : forall rows, by_recency rows ≡ₚ rows.
Hypothesis by_recency_sorted :
  forall rows, StronglySorted not_older (by_recency rows).

(** In a list sorted by recency, a row more recent than all others is the
    first. *)
Lemma newest_first (l rows : list quiz_row) (new : quiz_row) :
  StronglySorted not_older l ->
  l ≡ₚ rows ++ [new] ->
  Forall (fun r => row_created_at r < row_created_at new) rows ->
  exists rest, l = new :: rest.
Proof.
  intros Hsorted Hperm Holder.
  destruct l as [|h rest].
  - apply Permutation_length in Hperm. rewrite length_app in Hperm.
    simpl in Hperm. lia.
  - apply StronglySorted_inv in Hsorted as [_ Hhead].
    assert (Hh : h ∈ rows ++ [new]) by (rewrite <- Hperm; left).
    assert (Hnew : new ∈ h :: rest).
    { rewrite Hperm. apply elem_of_app. right. left. }
    apply elem_of_app in Hh. destruct Hh as [Hh | Hh].
    + apply elem_of_cons in Hnew as [-> | Hnew]; [now exists rest|].
      rewrite Forall_forall in Hhead, Holder.
      specialize (Hhead new Hnew). specialize (Holder h Hh).
      unfold not_older in Hhead. lia.
    + apply list_elem_of_singleton in Hh. subst h. now exists rest.
Qed.

Lemma sql_limit_all {A} (limit : Z) (rows : list A) :
  limit < 0 \/ Z.of_nat (length rows) <= limit ->
  sql_limit limit rows = rows.
Proof.
  intros H. unfold sql_limit. destruct (limit <? 0) eqn:Hneg; [reflexivity|].
  apply take_ge. lia.
Qed.

Lemma sql_limit_first {A} (limit : Z) (x : A) (rows : list A) :
  limit <> 0 -> exists rest, sql_limit limit (x :: rows) = x :: rest.
Proof.
  intros H. unfold sql_limit. destruct (limit <? 0) eqn:Hneg.
  - now exists rows.
  - destruct (Z.to_nat limit) as [|n] eqn:Hn; [lia|].
    now exists (take n rows).
Qed.

(** X17. A quiz that [generate_quiz] returns is in the table under its
    topic, with the whole parsed value in the [questions] column.
    [get_saved_quizzes] lists it together with the earlier rows when the
    limit is negative or above the number of earlier rows; when every
    earlier row has an earlier time stamp, it is the first of the listing
    for every limit but 0. *)
Theorem generated_quiz_listed copy topic context num_questions w t quiz :
  llm_complete (quiz_prompt copy topic context num_questions)
  = Return {| text := Some t |} ->
  json_loads t = Return quiz ->
  db_fault w = None ->
  let run := generate_quiz llm_complete json_loads copy topic context
               num_questions w in
  let new := {| row_id := quiz_seq w + 1; row_topic := topic;
                row_questions := quiz; row_created_at := clock w |} in
  run.1 = Return (Some quiz)
  /\ quiz_rows run.2 = quiz_rows w ++ [new]
  /\ (forall limit,
        limit < 0 \/ Z.of_nat (length (quiz_rows w)) < limit ->
        exists listed,
          (get_saved_quizzes by_recency limit run.2).1 = Return listed
          /\ listed ≡ₚ quiz_rows w ++ [new])
  /\ (Forall (fun r => row_created_at r < clock w) (quiz_rows w) ->
      forall limit,
        limit <> 0 ->
        exists rest,
          (get_saved_quizzes by_recency limit run.2).1 = Return (new :: rest)).
Proof.
  intros Hllm Hloads Hdb. cbv zeta.
  rewrite generate_quiz_run. cbv zeta. rewrite Hllm. simpl.
  rewrite Hloads, Hdb. simpl.
  split; [reflexivity|]. split; [reflexivity|].
  unfold get_saved_quizzes, get_quizzes. simpl. rewrite Hdb. simpl.
  split.
  - intros limit Hlimit. eexists. split; [reflexivity|].
    rewrite sql_limit_all.
    + apply by_recency_rows.
    + rewrite (Permutation_length (by_recency_rows _)), length_app. simpl. lia.
  - intros Holder limit Hlimit.
    destruct (newest_first _ (quiz_rows w)
                {| row_id := quiz_seq w + 1; row_topic := topic;
                   row_questions := quiz; row_created_at := clock w |}
                (by_recency_sorted _) (by_recency_rows _) Holder)
      as (rest & Hrest).
    rewrite Hrest.
    destruct (sql_limit_first limit
                {| row_id := quiz_seq w + 1; row_topic := topic;
                   row_questions := quiz; row_created_at := clock w |}
                rest Hlimit) as (rest' & Hfirst).
    rewrite Hfirst. now exists rest'.
Qed.

(** X18. The ids of the quiz table stay distinct and at most the
    auto-increment counter through [generate_quiz], whatever the model
    answers, and any listing of such a table has distinct ids. *)
Theorem quiz_ids_distinct copy topic context num_questions w :
  store_ok w ->
  let run := generate_quiz llm_complete json_loads copy topic context
               num_questions w in
  store_ok run.2
  /\ (forall limit listed,
        (get_saved_quizzes by_recency limit run.2).1 = Return listed ->
        NoDup (row_id <$> listed)).
Proof.
  intros [Hbound Hnodup]. cbv zeta.
  assert (Hok : store_ok
            (generate_quiz llm_complete json_loads copy topic context
               num_questions w).2).
  { rewrite generate_quiz_run. cbv zeta.
    destruct (llm_complete _) as [[[t|]]|e]; simpl; try (split; assumption).
    destruct (json_loads t) as [q|e]; simpl; try (split; assumption).
    destruct (db_fault w); simpl; [split; assumption|].
    split; simpl.
    - apply Forall_app. split.
      + eapply Forall_impl; [exact Hbound|]. simpl. intros; lia.
      + repeat constructor. simpl. lia.
    - rewrite fmap_app. apply NoDup_app. split; [exact Hnodup|]. split.
      + intros x Hx Hin. simpl in Hin. apply list_elem_of_singleton in Hin.
        apply list_elem_of_fmap in Hx as (r & -> & Hr).
        rewrite Forall_forall in Hbound. specialize (Hbound r Hr).
        simpl in Hbound. lia.
      + simpl. apply NoDup_singleton. }
  split; [exact Hok|].
  intros limit listed. unfold get_saved_quizzes, get_quizzes.
  destruct (db_fault _); simpl; [discriminate|].
  intros [= <-]. destruct Hok as [_ Hnd].
  assert (Hall : NoDup (row_id <$> by_recency (quiz_rows
            (generate_quiz llm_complete json_loads copy topic context
               num_questions w).2))).
  { now rewrite by_recency_rows. }
  unfold sql_limit. destruct (limit <? 0); [exact Hall|].
  rewrite <- (take_drop (Z.to_nat limit) (by_recency _)), fmap_app in Hall.
  now apply NoDup_app in Hall as [? _].
Qed.

End StoreFacts.

Lemma not_older_total : Total not_older.
Proof. intros a b. unfold not_older. lia. Qed.

Lemma not_older_transitive : Transitive not_older.
Proof. intros a b c. unfold not_older. lia. Qed.

Lemma recency_sort_rows rows : recency_sort rows ≡ₚ rows.
Proof. apply merge_sort_Permutation. Qed.

Lemma recency_sort_sorted rows : StronglySorted not_older (recency_sort rows).
Proof.
  apply (@StronglySorted_merge_sort _ not_older _ not_older_transitive
           not_older_total).
Qed.

(** The theorem on a table with one earlier quiz, listed with the limit of
    the page. *)
Lemma generated_quiz_listed_run :
  exists rest,
    (get_saved_quizzes recency_sort 10
       (generate_quiz good_quiz_llm good_loads BackendCopy "sets" "context" 5
          world_with_quiz).2).1
    = Return ({| row_id := 2; row_topic := "sets"; row_questions := good_quiz;
                 row_created_at := 20 |} :: rest).
Proof.
  refine (proj2 (proj2 (proj2
            (generated_quiz_listed good_quiz_llm good_loads recency_sort
               recency_sort_rows recency_sort_sorted BackendCopy "sets"
               "context" 5 world_with_quiz "good quiz" good_quiz _ _ _)))
            _ 10 _).
  - reflexivity.
  - reflexivity.
  - reflexivity.
  - repeat constructor.
  - lia.
Defined.

Lemma quiz_ids_distinct_run :
  store_ok
    (generate_quiz good_quiz_llm good_loads BackendCopy "sets" "context" 5
       world_with_quiz).2.
Proof.
  refine (proj1 (quiz_ids_distinct good_quiz_llm good_loads recency_sort
                   recency_sort_rows BackendCopy "sets" "context" 5
                   world_with_quiz _)).
  split.
  - constructor; [simpl; lia | constructor].
  - simpl. apply NoDup_singleton.
Defined.

(** With equal time stamps the order is the database's: a sort that keeps
    the earlier row first lists the new quiz second, and a limit of 1 leaves
    it out. *)
Example same_second_not_listed :
  let w := {| environ := ∅; stdout := []; calls := []; quiz_rows := [old_row];
              quiz_seq := 1; db_fault := None; clock := 10;
              persist_dir_exists := true |} in
  (get_saved_quizzes recency_sort 1
     (generate_quiz good_quiz_llm good_loads BackendCopy "sets" "context" 5
        w).2).1
  = Return [old_row].
Proof. vm_compute. reflexivity. Qed.

(** ** The quiz page *)

(** Unfolds the sequencing of calls that can raise. *)
Ltac unfold_outcome := unfold mbind, outcome_bind, mret, outcome_ret.

Lemma py_index_spec {A} (l : list A) (k : Z) :
  let n := Z.of_nat (length l) in
  (0 <= k < n -> py_index l k = l !! Z.to_nat k)
  /\ (- n <= k < 0 -> py_index l k = l !! Z.to_nat (k + n))
  /\ (k < - n \/ n <= k -> py_index l k = None).
Proof.
  cbv zeta. unfold py_index.
  destruct (0 <=? k) eqn:H0; destruct (k <? Z.of_nat (length l)) eqn:Hn;
    destruct (k <? 0) eqn:Hneg; destruct (- Z.of_nat (length l) <=? k) eqn:Hlow;
    simpl; repeat split; intros; try reflexivity; lia.
Qed.

(** The option looked up for a question that is a dictionary with a list of
    options and an integer index. *)
Lemma correct_option_run items options k :
  dict_get items "options" = Some (JList options) ->
  dict_get items "correct_answer" = Some (JInt k) ->
  correct_option (JDict items)
  = match py_index options k with
    | Some x => Return x
    | None => Raise (Exn "IndexError" "list index out of range")
    end.
Proof.
  intros Hoptions Hk. unfold correct_option, subscript_json at 1 2.
  rewrite Hoptions, Hk. reflexivity.
Qed.

(** X19. The page looks up the correct option as
    [question["options"][question["correct_answer"]]]. For a list of [n]
    options and an integer index [k] the lookup gives option [k] when
    [0 <= k < n], counts from the end when [-n <= k < 0], and raises
    [IndexError] for every other index. *)
Theorem correct_option_range items options k :
  dict_get items "options" = Some (JList options) ->
  dict_get items "correct_answer" = Some (JInt k) ->
  let n := Z.of_nat (length options) in
  (0 <= k < n ->
   exists x, options !! Z.to_nat k = Some x
             /\ correct_option (JDict items) = Return x)
  /\ (- n <= k < 0 ->
      exists x, options !! Z.to_nat (k + n) = Some x
                /\ correct_option (JDict items) = Return x)
  /\ (k < - n \/ n <= k ->
      correct_option (JDict items)
      = Raise (Exn "IndexError" "list index out of range")).
Proof.
  intros Hoptions Hk. cbv zeta.
  rewrite (correct_option_run _ _ _ Hoptions Hk).
  destruct (py_index_spec options k) as (Hin & Hback & Hout).
  split; [|split].
  - intros Hrange. rewrite (Hin Hrange).
    destruct (lookup_lt_is_Some_2 options (Z.to_nat k)) as [x Hx]; [lia|].
    exists x. now rewrite Hx.
  - intros Hrange. rewrite (Hback Hrange).
    destruct (lookup_lt_is_Some_2 options (Z.to_nat (k + Z.of_nat (length options))))
      as [x Hx]; [lia|].
    exists x. now rewrite Hx.
  - intros Hrange. now rewrite (Hout Hrange).
Qed.

(** The theorem on the four options of the sample question: index 2 gives
    the third option. *)
Lemma correct_option_range_run :
  exists x,
    [JStr "a"; JStr "b"; JStr "c"; JStr "d"] !! Z.to_nat 2 = Some x
    /\ correct_option good_question = Return x.
Proof.
  refine (proj1 (correct_option_range
                   [ ("question", JStr "Q");
                     ("options", JList [JStr "a"; JStr "b"; JStr "c"; JStr "d"]);
                     ("correct_answer", JInt 2) ]
                   [JStr "a"; JStr "b"; JStr "c"; JStr "d"] 2 _ _) _).
  - reflexivity.
  - reflexivity.
  - simpl. lia.
Defined.

(** What the spec asks of a question, read on the dictionary. *)
Lemma spec_valid_question_inv q :
  spec_valid_question q = true ->
  exists items options k,
    q = JDict items
    /\ dict_get items "options" = Some (JList options)
    /\ dict_get items "correct_answer" = Some (JInt k)
    /\ length options = 4%nat /\ 0 <= k <= 3.
Proof.
  unfold spec_valid_question. intros H.
  destruct q as [| | | | | |items]; try discriminate.
  destruct (dict_get items "options") as [[| | | | |options|]|] eqn:Hoptions;
    try discriminate.
  destruct (dict_get items "correct_answer") as [[| |k| | | |]|] eqn:Hk;
    try discriminate.
  apply andb_prop in H as [H Hhi]. apply andb_prop in H as [Hlen Hlo].
  apply Nat.eqb_eq in Hlen.
  exists items, options, k.
  split; [reflexivity|]. split; [exact Hoptions|]. split; [exact Hk|].
  split; [exact Hlen | lia].
Qed.

Section PageFacts.

Variable st_radio : nat -> json -> outcome (option json).
Variable py_eq : json -> json -> bool.

(** The loop over questions of the shape the spec asks for, each with its
    text, when the radio widget returns. *)
Lemma questions_loop_valid questions :
  Forall (fun q => spec_valid_question q = true
                   /\ exists text, subscript_json q (JStr "question") = Return text)
         questions ->
  (forall i options, exists answer, st_radio i options = Return answer) ->
  forall i acc,
    exists new,
      questions_loop st_radio py_eq i questions acc = Return (acc ++ new)
      /\ Forall2 (fun q a =>
                    subscript_json q (JStr "question") = Return (ua_question a)
                    /\ exists options,
                         subscript_json q (JStr "options") = Return (JList options)
                         /\ ua_correct_answer a ∈ options)
                 questions new.
Proof.
  intros Hvalid Hradio.
  induction Hvalid as [|q rest [Hq [text Htext]] _ IH]; intros i acc.
  - exists []. split; [simpl; now rewrite app_nil_r | constructor].
  - destruct (spec_valid_question_inv q Hq)
      as (items & options & k & -> & Hoptions & Hk & Hlen & Hrange).
    assert (Hsub : subscript_json (JDict items) (JStr "options")
                   = Return (JList options)).
    { unfold subscript_json. now rewrite Hoptions. }
    destruct (lookup_lt_is_Some_2 options (Z.to_nat k)) as [x Hx]; [lia|].
    assert (Hcorrect : correct_option (JDict items) = Return x).
    { rewrite (correct_option_run _ _ _ Hoptions Hk).
      destruct (py_index_spec options k) as (Hin & _).
      rewrite Hin by lia. now rewrite Hx. }
    destruct (Hradio i (JList options)) as [answer Hanswer].
    assert (His : exists is_correct,
               is_correct_of py_eq answer (JDict items) = Return is_correct).
    { unfold is_correct_of. destruct answer as [a|]; [|now eexists].
      destruct (json_truthy a); [|now eexists].
      rewrite Hcorrect. now eexists. }
    destruct His as [is_correct His].
    destruct (IH (S i)
                (acc ++ [ {| ua_question := text; ua_user_answer := answer;
                             ua_correct_answer := x;
                             ua_is_correct := is_correct |} ]))
      as (new & Hloop & Hall).
    eexists (_ :: new). split.
    + cbn [questions_loop]. unfold_outcome.
      rewrite Htext, Hsub, Hanswer, Hcorrect, His, Hloop.
      now rewrite <- app_assoc.
    + constructor; [|exact Hall]. simpl. split; [exact Htext|].
      exists options. split; [exact Hsub|].
      now apply list_elem_of_lookup_2 in Hx.
Qed.

(** X20. A quiz of the shape the spec asks for, whose questions each have
    their text, is displayed without an exception when the radio widgets
    return: one answer entry per question, in order, with the text of the
    question and a correct answer that is one of its options. *)
Theorem valid_quiz_displays items title questions :
  dict_get items "quiz_title" = Some title ->
  dict_get items "questions" = Some (JList questions) ->
  Forall (fun q => spec_valid_question q = true
                   /\ exists text, subscript_json q (JStr "question") = Return text)
         questions ->
  (forall i options, exists answer, st_radio i options = Return answer) ->
  exists answers,
    quiz_display st_radio py_eq (JDict items) = Return answers
    /\ Forall2 (fun q a =>
                  subscript_json q (JStr "question") = Return (ua_question a)
                  /\ exists options,
                       subscript_json q (JStr "options") = Return (JList options)
                       /\ ua_correct_answer a ∈ options)
               questions answers.
Proof.
  intros Htitle Hquestions Hvalid Hradio.
  destruct (questions_loop_valid questions Hvalid Hradio 0%nat [])
    as (answers & Hloop & Hall).
  exists answers. split; [|exact Hall].
  unfold quiz_display, subscript_json. rewrite Htitle, Hquestions.
  unfold_outcome. simpl. exact Hloop.
Qed.

(** The current quiz made from a saved row whose [questions] column holds a
    non-empty dictionary: the loop runs over the keys of the dictionary, and
    the first key is a string that is subscripted with a string. *)
Lemma load_quiz_dict row key value items :
  row_questions row = JDict ((key, value) :: items) ->
  quiz_display st_radio py_eq (load_quiz row)
  = Raise (Exn "TypeError" "string indices must be integers").
Proof.
  intros Hrow. unfold quiz_display, load_quiz. rewrite Hrow. reflexivity.
Qed.

(** X21. [Load Quiz] makes the current quiz from a saved row with the
    [questions] column as its questions. When the column holds a list, the
    page runs over that list; when it holds a non-empty dictionary, the page
    raises [TypeError] at the first key, before any widget is drawn; an
    empty dictionary is displayed as a quiz without questions. *)
Theorem loaded_quiz_display row :
  (forall questions,
      row_questions row = JList questions ->
      quiz_display st_radio py_eq (load_quiz row)
      = questions_loop st_radio py_eq 0 questions [])
  /\ (forall key value items,
        row_questions row = JDict ((key, value) :: items) ->
        quiz_display st_radio py_eq (load_quiz row)
        = Raise (Exn "TypeError" "string indices must be integers"))
  /\ (row_questions row = JDict [] ->
      quiz_display st_radio py_eq (load_quiz row) = Return []).
Proof.
  split; [|split].
  - intros questions Hrow. unfold quiz_display, load_quiz. rewrite Hrow.
    reflexivity.
  - intros key value items. apply load_quiz_dict.
  - intros Hrow. unfold quiz_display, load_quiz. rewrite Hrow. reflexivity.
Qed.

(** A value that the page displays is a dictionary with a first item. *)
Lemma displayed_is_dict quiz answers :
  quiz_display st_radio py_eq quiz = Return answers ->
  exists key value items, quiz = JDict ((key, value) :: items).
Proof.
  unfold quiz_display. intros H.
  destruct quiz as [| | | | | |[|[key value] items]]; try discriminate.
  now exists key, value, items.
Qed.

Variable llm_complete : string -> outcome completion.
Variable json_loads : string -> outcome json.

(** X22. A quiz that [generate_quiz] returned and that the page displays
    is not displayed again from the store: the row saved for it holds the
    whole quiz, title included, in its [questions] column, and the current
    quiz that [Load Quiz] makes of that row raises [TypeError] on the
    page. *)
Theorem saved_quiz_not_displayed copy topic context num_questions w quiz
    answers :
  (generate_quiz llm_complete json_loads copy topic context num_questions w).1
  = Return (Some quiz) ->
  quiz_display st_radio py_eq quiz = Return answers ->
  exists row,
    last (quiz_rows
            (generate_quiz llm_complete json_loads copy topic context
               num_questions w).2) = Some row
    /\ row_topic row = topic
    /\ row_questions row = quiz
    /\ quiz_display st_radio py_eq (load_quiz row)
       = Raise (Exn "TypeError" "string indices must be integers").
Proof.
  intros Hrun Hshown.
  destruct (displayed_is_dict quiz answers Hshown)
    as (key & value & items & Hquiz).
  revert Hrun. rewrite generate_quiz_run. cbv zeta.
  destruct (llm_complete _) as [[[t|]]|e]; simpl; try discriminate.
  destruct (json_loads t) as [q|e]; simpl; try discriminate.
  destruct (db_fault w); simpl; try discriminate.
  intros [= ->].
  eexists. split; [simpl; apply last_snoc|].
  split; [reflexivity|]. split; [reflexivity|].
  apply (load_quiz_dict _ key value items). simpl. exact Hquiz.
Qed.

End PageFacts.

Lemma valid_quiz_displays_run :
  exists answers,
    quiz_display nothing_selected str_eq good_quiz = Return answers
    /\ Forall2 (fun q a =>
                  subscript_json q (JStr "question") = Return (ua_question a)
                  /\ exists options,
                       subscript_json q (JStr "options") = Return (JList options)
                       /\ ua_correct_answer a ∈ options)
               [good_question] answers.
Proof.
  refine (valid_quiz_displays nothing_selected str_eq
            [ ("quiz_title", JStr "Quiz about sets");
              ("questions", JList [good_question]) ]
            (JStr "Quiz about sets") [good_question] _ _ _ _).
  - reflexivity.
  - reflexivity.
  - constructor; [|constructor]. split; [reflexivity|].
    exists (JStr "Q"). reflexivity.
  - intros i options. exists None. reflexivity.
Defined.

Lemma saved_quiz_not_displayed_run :
  exists row,
    last (quiz_rows
            (generate_quiz good_quiz_llm good_loads BackendCopy "sets"
               "context" 5 quiet_world).2) = Some row
    /\ row_topic row = "sets"
    /\ row_questions row = good_quiz
    /\ quiz_display nothing_selected str_eq (load_quiz row)
       = Raise (Exn "TypeError" "string indices must be integers").
Proof.
  refine (saved_quiz_not_displayed nothing_selected str_eq good_quiz_llm
            good_loads BackendCopy "sets" "context" 5 quiet_world good_quiz
            [ {| ua_question := JStr "Q"; ua_user_answer := None;
                 ua_correct_answer := JStr "c"; ua_is_correct := None |} ]
            _ _).
  - reflexivity.
  - reflexivity.
Defined.

(** The quiz of the sample model answer, which points at option 5 of 4, is
    returned and saved by [generate_quiz] and raises on the page. *)
Example bad_quiz_on_the_page :
  quiz_display nothing_selected str_eq bad_quiz
  = Raise (Exn "IndexError" "list index out of range").
Proof. reflexivity. Qed.

(** An index of -1 is taken as the last option. *)
Example last_option_from_the_end :
  correct_option
    (JDict [ ("question", JStr "Q");
             ("options", JList [JStr "a"; JStr "b"; JStr "c"; JStr "d"]);
             ("correct_answer", JInt (-1)) ])
  = Return (JStr "d").
Proof. reflexivity. Qed.

(** ** The construction of the engine *)

Section ConstructionSteps.

Variable discovery_build : string -> outcome unit.
Variable load_index : outcome unit.
Variable new_llm : option string -> outcome unit.
Variable as_query_engine : outcome unit.

(** X23. [EnhancedQueryEngine.__init__] returns an engine exactly when
    the directory of the vector store exists, the index loads, the model
    client is created, [YOUTUBE_API_KEY] is set to a non-empty string with
    which the API client is built, and the query engine is built; the
    searcher of the engine holds that key. Without the directory it raises
    [FileNotFoundError] before anything else is done, and a key set to the
    empty string is refused like a missing one. The construction leaves the
    world as it was. *)
Theorem engine_construction w :
  let run := EnhancedQueryEngine_init discovery_build load_index new_llm
               as_query_engine w in
  run.2 = w
  /\ (forall engine,
        run.1 = Return engine <->
        persist_dir_exists w = true
        /\ load_index = Return tt
        /\ new_llm (environ w !! "GROQ_API_KEY") = Return tt
        /\ (exists k,
              environ w !! "YOUTUBE_API_KEY" = Some k
              /\ str_truthy k = true
              /\ discovery_build k = Return tt
              /\ engine = {| youtube_searcher := {| api_key := k |} |})
        /\ as_query_engine = Return tt)
  /\ (persist_dir_exists w = false ->
      run.1 = Raise (Exn "FileNotFoundError"
                       "Vector store not found. Please run ingestion first."))
  /\ (persist_dir_exists w = true ->
      load_index = Return tt ->
      new_llm (environ w !! "GROQ_API_KEY") = Return tt ->
      environ w !! "YOUTUBE_API_KEY" = Some "" ->
      run.1 = Raise (Exn "ValueError"
                       "YouTube API key not found in environment variables")).
Proof.
  cbv zeta. unfold EnhancedQueryEngine_init, YouTubeSearcher_init.
  unfold_statements.
  destruct (persist_dir_exists w); simpl.
  2:{ split; [reflexivity|]. split; [|split; [reflexivity | discriminate]].
      intros engine. split; [discriminate|]. intros (H & _). discriminate. }
  destruct load_index as [[]|e1]; simpl.
  2:{ split; [reflexivity|]. split; [|split; discriminate].
      intros engine. split; [discriminate|]. intros (_ & H & _). discriminate. }
  destruct (new_llm _) as [[]|e2]; simpl.
  2:{ split; [reflexivity|]. split; [|split; discriminate].
      intros engine. split; [discriminate|].
      intros (_ & _ & H & _). discriminate. }
  destruct (environ w !! "YOUTUBE_API_KEY") as [k|] eqn:Hkey; simpl.
  2:{ split; [reflexivity|]. split; [|split; discriminate].
      intros engine. split; [discriminate|].
      intros (_ & _ & _ & (k & H & _) & _). discriminate. }
  destruct (str_truthy k) eqn:Hk; simpl.
  2:{ split; [reflexivity|]. split; [|split; [discriminate|reflexivity]].
      intros engine. split; [discriminate|].
      intros (_ & _ & _ & (k' & [= <-] & H & _) & _). congruence. }
  destruct (discovery_build k) as [[]|e3] eqn:Hbuild; simpl.
  2:{ split; [reflexivity|]. split; [|split; [discriminate|]].
      - intros engine. split; [discriminate|].
        intros (_ & _ & _ & (k' & [= <-] & _ & H & _) & _). congruence.
      - intros _ _ _ [= ->]. discriminate. }
  destruct as_query_engine as [[]|e4]; simpl.
  2:{ split; [reflexivity|]. split; [|split; [discriminate|]].
      - intros engine. split; [discriminate|]. intros (_ & _ & _ & _ & H).
        discriminate.
      - intros _ _ _ [= ->]. discriminate. }
  split; [reflexivity|]. split; [|split; [discriminate|]].
  - intros engine. split.
    + intros [= <-]. repeat (split; [reflexivity|]). split; [|reflexivity].
      exists k. repeat split; assumption.
    + intros (_ & _ & _ & (k' & [= <-] & _ & _ & ->) & _). reflexivity.
  - intros _ _ _ [= ->]. discriminate.
Qed.

End ConstructionSteps.

(** An engine is built in a world with both keys. *)
Example engine_is_built :
  (EnhancedQueryEngine_init (fun _ => Return tt) (Return tt)
     (fun _ => Return tt) (Return tt)
     {| environ := {[ "YOUTUBE_API_KEY" := "yt-key"; "GROQ_API_KEY" := "g-key" ]};
        stdout := []; calls := []; quiz_rows := []; quiz_seq := 0;
        db_fault := None; clock := 0; persist_dir_exists := true |}).1
  = Return {| youtube_searcher := {| api_key := "yt-key" |} |}.
Proof. vm_compute. reflexivity. Qed.

(** ** Page and slide numbers *)

Section PageNumberFacts.

Variable encode : string -> list token.
Variable decode : list token -> string.

(** Parts numbered by position: the metadata of a chunk names the position
    of the element its text came from. *)
Lemma numbered_parts_aligned {A} (f : A -> string) (l : list A)
    course name lecture (max_tokens overlap : Z) :
  let parts := imap (fun i x => (f x, Some (Z.of_nat i + 1))) l in
  forall pos chunk,
    file_chunks encode decode max_tokens overlap parts !! pos = Some chunk ->
    exists i x j,
      l !! i = Some x
      /\ skipped (f x) = false
      /\ chunks_of encode decode max_tokens overlap (f x) !! j = Some chunk
      /\ file_metadatas encode decode course name lecture max_tokens overlap
           parts !! pos
         = Some {| course_id := course; lecture_id := lecture; source := name;
                   page_or_slide := Some (Z.of_nat i + 1);
                   chunk_index := Z.of_nat j |}.
Proof.
  cbv zeta. intros pos chunk Hpos. unfold file_chunks in Hpos.
  destruct (file_lists_aligned encode decode course name lecture max_tokens
              overlap _ pos chunk Hpos) as (p & j & Hin & Hj & Hm).
  apply list_elem_of_In, filter_In in Hin as [Hin Hkeep].
  apply list_elem_of_In, elem_of_lookup_imap_1 in Hin as (i & x & -> & Hx).
  exists i, x, j. simpl in *.
  split; [exact Hx|]. split; [now destruct (skipped (f x))|].
  split; [exact Hj|]. exact Hm.
Qed.

Variable uuid4 : nat -> string.

Lemma numbered_parts_loop {A} (f : A -> string) (l : list A)
    course name lecture (max_tokens overlap : Z) fuel (drawn0 : nat) :
  0 <= overlap < max_tokens ->
  Forall (fun p : string * option Z => (length (encode p.1) < fuel)%nat)
         (imap (fun i x => (f x, Some (Z.of_nat i + 1))) l) ->
  exists g,
    parts_loop encode decode uuid4 fuel course name lecture max_tokens overlap
      (imap (fun i x => (f x, Some (Z.of_nat i + 1))) l)
      {| all_chunks := []; all_metadatas := []; all_ids := [];
         drawn := drawn0 |}
    = Some (Return g)
    /\ forall pos chunk,
         all_chunks g !! pos = Some chunk ->
         exists i x j,
           l !! i = Some x
           /\ skipped (f x) = false
           /\ chunks_of encode decode max_tokens overlap (f x) !! j = Some chunk
           /\ all_metadatas g !! pos
              = Some {| course_id := course; lecture_id := lecture;
                        source := name;
                        page_or_slide := Some (Z.of_nat i + 1);
                        chunk_index := Z.of_nat j |}.
Proof.
  intros Hcfg Hfuel.
  rewrite (parts_loop_run encode decode uuid4 course name lecture max_tokens
             overlap fuel _ Hcfg Hfuel).
  eexists. split; [reflexivity|]. simpl.
  apply numbered_parts_aligned.
Qed.

(** X24. In a valid configuration, the page number in the metadata of a
    chunk of a PDF is the position of its page in the document, counted
    from 1, and the slide number that of its slide in a presentation: pages
    and slides that are blank, or whose extraction raises, give no chunk and
    do not shift the numbers of the later ones. *)
Theorem page_numbers_are_positions course name lecture (max_tokens overlap : Z)
    fuel (drawn0 : nat) :
  0 <= overlap < max_tokens ->
  (forall pages,
      Forall (fun p : string * option Z => (length (encode p.1) < fuel)%nat)
             (extract_text_from_pdf pages) ->
      exists g,
        parts_loop encode decode uuid4 fuel course name lecture max_tokens
          overlap (extract_text_from_pdf pages)
          {| all_chunks := []; all_metadatas := []; all_ids := [];
             drawn := drawn0 |}
        = Some (Return g)
        /\ forall pos chunk,
             all_chunks g !! pos = Some chunk ->
             exists i page j,
               pages !! i = Some page
               /\ skipped (page_text page) = false
               /\ chunks_of encode decode max_tokens overlap (page_text page) !! j
                  = Some chunk
               /\ all_metadatas g !! pos
                  = Some {| course_id := course; lecture_id := lecture;
                            source := name;
                            page_or_slide := Some (Z.of_nat i + 1);
                            chunk_index := Z.of_nat j |})
  /\ (forall slides,
        Forall (fun p : string * option Z => (length (encode p.1) < fuel)%nat)
               (extract_text_from_pptx slides) ->
        exists g,
          parts_loop encode decode uuid4 fuel course name lecture max_tokens
            overlap (extract_text_from_pptx slides)
            {| all_chunks := []; all_metadatas := []; all_ids := [];
               drawn := drawn0 |}
          = Some (Return g)
          /\ forall pos chunk,
               all_chunks g !! pos = Some chunk ->
               exists i shapes j,
                 slides !! i = Some shapes
                 /\ chunks_of encode decode max_tokens overlap
                      (String.concat newline (omap id shapes)) !! j
                    = Some chunk
                 /\ all_metadatas g !! pos
                    = Some {| course_id := course; lecture_id := lecture;
                              source := name;
                              page_or_slide := Some (Z.of_nat i + 1);
                              chunk_index := Z.of_nat j |}).
Proof.
  intros Hcfg. split.
  - intros pages Hfuel.
    destruct (numbered_parts_loop page_text pages course name lecture
                max_tokens overlap fuel drawn0 Hcfg Hfuel) as (g & Hg & Hall).
    exists g. split; [exact Hg|]. exact Hall.
  - intros slides Hfuel.
    destruct (numbered_parts_loop
                (fun shapes => String.concat newline (omap id shapes))
                slides course name lecture max_tokens overlap fuel drawn0
                Hcfg Hfuel) as (g & Hg & Hall).
    exists g. split; [exact Hg|].
    intros pos chunk Hpos.
    destruct (Hall pos chunk Hpos) as (i & shapes & j & Hi & _ & Hj & Hm).
    now exists i, shapes, j.
Qed.

End PageNumberFacts.

(** The theorem on a document whose first page cannot be read and whose
    second page is blank: the chunks are those of the third page. *)
Lemma page_numbers_are_positions_run :
  exists g,
    parts_loop char_encode char_decode numbered_uuid 8 "calculus101"
      "notes.pdf" None 4 2
      (extract_text_from_pdf
         [ PageFails (Exn "PdfReadError" "bad page"); PageText (Some "  ");
           PageText (Some "abc") ])
      {| all_chunks := []; all_metadatas := []; all_ids := []; drawn := 0 |}
    = Some (Return g)
    /\ forall pos chunk,
         all_chunks g !! pos = Some chunk ->
         exists i page j,
           [ PageFails (Exn "PdfReadError" "bad page"); PageText (Some "  ");
             PageText (Some "abc") ] !! i = Some page
           /\ skipped (page_text page) = false
           /\ chunks_of char_encode char_decode 4 2 (page_text page) !! j
              = Some chunk
           /\ all_metadatas g !! pos
              = Some {| course_id := "calculus101"; lecture_id := None;
                        source := "notes.pdf";
                        page_or_slide := Some (Z.of_nat i + 1);
                        chunk_index := Z.of_nat j |}.
Proof.
  refine (proj1 (page_numbers_are_positions char_encode char_decode
                   numbered_uuid "calculus101" "notes.pdf" None 4 2 8 0 _)
            [ PageFails (Exn "PdfReadError" "bad page"); PageText (Some "  ");
              PageText (Some "abc") ] _).
  - lia.
  - repeat (constructor; [simpl; lia|]). constructor.
Defined.

(** On that document the metadata name page 3. *)
Example third_page_is_page_three :
  file_metadatas char_encode char_decode "calculus101" "notes.pdf" None 4 2
    (extract_text_from_pdf
       [ PageFails (Exn "PdfReadError" "bad page"); PageText (Some "  ");
         PageText (Some "abc") ])
  = [ {| course_id := "calculus101"; lecture_id := None; source := "notes.pdf";
         page_or_slide := Some 3; chunk_index := 0 |};
      {| course_id := "calculus101"; lecture_id := None; source := "notes.pdf";
         page_or_slide := Some 3; chunk_index := 1 |} ].
Proof. reflexivity. Qed.
